(** * rcon-cli: session resolution, dispatch and the interactive engine

    A shallow embedding of [internal/executor/executor.go] and the
    properties of its specification.

    Go strings are byte strings: they are [string] here, one [ascii] per
    byte.  The reader [r] is the finite sequence of bytes it still holds,
    the writer [w] is the list of the print calls made on it, and every call
    to a collaborator (a protocol client, the logger, the config loader) is
    recorded in a trace.  What a collaborator answers is a parameter of the
    development: a function of the calls made so far and of its arguments. *)

From Stdlib Require Import Ascii String NArith Lia.
From stdpp Require Import base strings list gmap.

Local Open Scope string_scope.

(** ** The parts of Go's standard library the executor calls *)

Module Go.

Definition newline : ascii := "010".
Definition carriageReturn : ascii := "013".

(** White space of [strings.TrimSpace] and of [fmt]'s scanner, on ASCII
    bytes: tab, line feed, vertical tab, form feed, carriage return, blank.
    The library decodes the bytes from 128 on as UTF-8 and knows more white
    space there (U+0085, U+00A0, U+2000 and others); here such bytes count
    as text.  The functions of this module are the library's on ASCII
    input, and the statements that describe what is read or trimmed are
    made for ASCII input: see [asciiOnly] and [word] below. *)
Definition isSpace (c : ascii) : bool :=
  let n := N_of_ascii c in ((9 <=? n) && (n <=? 13) || (n =? 32))%N.

(** The two loops of [strings.TrimSpace]: over the white space at the
    start, then over the white space at the end. *)
Fixpoint trimLeading (s : string) : string :=
  match s with
  | String c s' => if isSpace c then trimLeading s' else s
  | EmptyString => EmptyString
  end.

Fixpoint trimTrailing (s : string) : string :=
  match s with
  | EmptyString => EmptyString
  | String c s' =>
      match trimTrailing s' with
      | EmptyString => if isSpace c then EmptyString else String c EmptyString
      | t => String c t
      end
  end.

(** [strings.TrimSpace] *)
Definition TrimSpace (s : string) : string := trimTrailing (trimLeading s).

(** [fmt.Fscanln(r, &v)] with one [*string] operand.  [SkipSpace] is the
    scanner's method of that name followed by its end-of-input test: a line
    feed met before any text is the error "unexpected newline". *)
Inductive skipped : Type :=
  | AtEOF
  | AtNewline (rest : string)
  | AtWord (rest : string).

Fixpoint SkipSpace (inp : string) : skipped :=
  match inp with
  | EmptyString => AtEOF
  | String c rest =>
      if Ascii.eqb c newline then AtNewline rest
      else if isSpace c then SkipSpace rest
      else AtWord inp
  end.

(** The word: the bytes up to the next white space, which stays unread. *)
Fixpoint token (inp : string) : string * string :=
  match inp with
  | EmptyString => (EmptyString, EmptyString)
  | String c rest =>
      if isSpace c then (EmptyString, inp)
      else let '(t, rest') := token rest in (String c t, rest')
  end.

(** After the operand [Fscanln] reads on to the line feed or the end of
    input; other text is the error "expected newline", met with its first
    byte consumed. *)
Fixpoint endOfLine (inp : string) : string :=
  match inp with
  | EmptyString => EmptyString
  | String c rest =>
      if Ascii.eqb c newline then rest
      else if isSpace c then endOfLine rest
      else rest
  end.

(** [Fscanln inp old] is the value of the operand after the call (it keeps
    [old] when the scan fails before the word) and what the reader still
    holds.  The executor drops the count and the error [Fscanln] returns. *)
Definition Fscanln (inp : string) (old : string) : string * string :=
  match SkipSpace inp with
  | AtEOF => (old, EmptyString)
  | AtNewline rest => (old, rest)
  | AtWord inp' => let '(t, rest) := token inp' in (t, endOfLine rest)
  end.

(** [bufio.MaxScanTokenSize] *)
Definition MaxScanTokenSize : N := 65536.

(** [dropCR] of package bufio: a final carriage return is not part of the
    line. *)
Fixpoint dropCR (line : string) : string :=
  match line with
  | EmptyString => EmptyString
  | String c EmptyString =>
      if Ascii.eqb c carriageReturn then EmptyString else line
  | String c rest => String c (dropCR rest)
  end.

(** A [bufio.Scanner] with its default split function [ScanLines], run
    until [Scan] reports false: the lines [Text] returns in turn, and what
    the reader holds afterwards.  [line] is the part of the current line
    read so far and [n] its length.  [Scan] stops at the end of input, where
    text after the last line feed is a last line, and with [ErrTooLong] once
    [MaxScanTokenSize] bytes are buffered without a line feed among them. *)
Fixpoint ScanLines (n : N) (line : string) (inp : string)
  : list string * string :=
  if (n =? MaxScanTokenSize)%N then ([], inp)
  else
    match inp with
    | EmptyString => (if (n =? 0)%N then [] else [dropCR line], EmptyString)
    | String c rest =>
        if Ascii.eqb c newline then
          let '(lines, unread) := ScanLines 0 EmptyString rest in
          (dropCR line :: lines, unread)
        else ScanLines (n + 1) (line +:+ String c EmptyString) rest
    end.

End Go.

(** ** Data model *)

(** [config.Session] *)
Record Session : Type := mkSession {
  Address : string;
  Password : string;
  Type_ : string;
  Log : string
}.

Definition setAddress (v : string) (ses : Session) : Session :=
  mkSession v (Password ses) (Type_ ses) (Log ses).
Definition setPassword (v : string) (ses : Session) : Session :=
  mkSession (Address ses) v (Type_ ses) (Log ses).
Definition setType (v : string) (ses : Session) : Session :=
  mkSession (Address ses) (Password ses) v (Log ses).
Definition setLog (v : string) (ses : Session) : Session :=
  mkSession (Address ses) (Password ses) (Type_ ses) v.

(** The flags [c.String] is asked for, by the name the executor uses. *)
Module cli.
Record Context : Type := mkContext {
  a : string;
  p : string;
  t : string;
  l : string;
  command : string;
  e : string;
  cfg : string
}.
End cli.

(** [CommandQuit] is the command for exit from Interactive mode. *)
Definition CommandQuit : string := ":q".

(** [AttemptsLimit] is the limit value for the number of attempts to obtain
    user data in terminal mode. *)
Definition AttemptsLimit : nat := 3.

(** Errors.  The first four are the executor's own values; a collaborator's
    error is [ErrCollaborator], and [ErrWriteLog] is the logger's error
    wrapped by [fmt.Errorf("write log error: %w", err)]. *)
Inductive error : Type :=
  | ErrEmptyAddress
  | ErrEmptyPassword
  | ErrCommandEmpty
  | ErrToManyFails
  | ErrCollaborator (msg : string)
  | ErrWriteLog (msg : string).

(** The three protocol clients. *)
Inductive Client : Type := rcon | telnet | websocket.

(** Calls to the collaborators, with their arguments. *)
Inductive Event : Type :=
  | CallExecute (c : Client) (address password command : string)
  | CallCheckCredentials (c : Client) (address password : string)
  | CallInteractive (c : Client) (address password : string)
  | CallLoggerWrite (name address command result : string)
  | CallNewConfig (name : string).

(** Print calls on the writer. *)
Inductive Print : Type :=
  | Fprint (s : string)
  | Fprintln (s : string)
  | Fprintf (format : string) (args : list string).

Record State : Type := mkState {
  r : string;
  w : list Print;
  trace : list Event
}.

(** ** The collaborators

    Package config with its constants, the protocol clients and the logger
    are not part of the executor: they are taken as parameters.  A
    collaborator sees the calls made before it. *)
Record Env : Type := mkEnv {
  ProtocolRCON : string;
  ProtocolWebRCON : string;
  ProtocolTELNET : string;
  DefaultConfigEnv : string;
  config_NewConfig : list Event -> string -> gmap string Session + string;
  rcon_Execute :
    list Event -> string -> string -> string -> string * option string;
  telnet_Execute :
    list Event -> string -> string -> string -> string * option string;
  websocket_Execute :
    list Event -> string -> string -> string -> string * option string;
  rcon_CheckCredentials : list Event -> string -> string -> option string;
  websocket_CheckCredentials : list Event -> string -> string -> option string;
  telnet_Interactive :
    list Event -> string -> string -> string ->
    option string * string * list Print;
  logger_Write :
    list Event -> string -> string -> string -> string -> option string
}.

(** The case constants of one Go switch are pairwise distinct (the compiler
    rejects a duplicate), and [Interactive] switches on the three protocol
    names and the empty string. *)
Definition distinct_protocols (E : Env) : Prop :=
  NoDup [ProtocolTELNET E; EmptyString; ProtocolRCON E; ProtocolWebRCON E].

(** ** A state monad for the effects *)

Definition M (A : Type) : Type := State -> A * State.

Definition ret {A : Type} (x : A) : M A := fun st => (x, st).

Definition bind {A B : Type} (c : M A) (k : A -> M B) : M B :=
  fun st => let '(x, st') := c st in k x st'.

Declare Scope exec_scope.
Delimit Scope exec_scope with exec.
Notation "x <- c ;; k" := (bind c (fun x => k))
  (at level 20, c at level 99, k at level 200, only parsing) : exec_scope.
Notation "' pat <- c ;; k" := (bind c (fun x => let pat := x in k))
  (at level 20, pat pattern, c at level 99, k at level 200, only parsing)
  : exec_scope.
Notation "c ;; k" := (bind c (fun _ => k))
  (at level 100, k at level 200, only parsing, right associativity)
  : exec_scope.
Local Open Scope exec_scope.

Definition print (x : Print) : M unit :=
  fun st => (tt, mkState (r st) (w st ++ [x]) (trace st)).

Definition record (ev : Event) : M unit :=
  fun st => (tt, mkState (r st) (w st) (trace st ++ [ev])).

Definition history : M (list Event) := fun st => (trace st, st).

(** [fmt.Fscanln(r, &v)], [v] holding [old] before the call. *)
Definition Fscanln (old : string) : M string :=
  fun st =>
    let '(v, rest) := Go.Fscanln (r st) old in
    (v, mkState rest (w st) (trace st)).

(** [bufio.NewScanner(r)] and the lines its [Scan] loop is given.  The
    scanner reads ahead, so once it is made [r] is left with what remains
    when [Scan] reports false; the executor reads [r] again only then.
    When the loop is left by a break or a return, what the scanner has
    taken from the reader depends on the size of its reads: the field [r]
    is not the reader's content on those paths, and no statement is made
    about it there. *)
Definition NewScanner : M (list string) :=
  fun st =>
    let '(lines, unread) := Go.ScanLines 0 EmptyString (r st) in
    (lines, mkState unread (w st) (trace st)).

Definition failure (err : option string) : option error :=
  option_map ErrCollaborator err.

(** [rcon.Execute], [telnet.Execute] and [websocket.Execute] *)
Definition client_Execute (E : Env) (c : Client)
  : list Event -> string -> string -> string -> string * option string :=
  match c with
  | rcon => rcon_Execute E
  | telnet => telnet_Execute E
  | websocket => websocket_Execute E
  end.

Definition call_Execute (E : Env) (c : Client)
    (address password command : string) : M (string * option string) :=
  h <- history ;;
  record (CallExecute c address password command) ;;
  ret (client_Execute E c h address password command).

(** [rcon.CheckCredentials] and [websocket.CheckCredentials]; the telnet
    client checks the credentials inside its [Interactive]. *)
Definition call_rcon_CheckCredentials (E : Env) (address password : string)
  : M (option string) :=
  h <- history ;;
  record (CallCheckCredentials rcon address password) ;;
  ret (rcon_CheckCredentials E h address password).

Definition call_websocket_CheckCredentials (E : Env)
    (address password : string) : M (option string) :=
  h <- history ;;
  record (CallCheckCredentials websocket address password) ;;
  ret (websocket_CheckCredentials E h address password).

(** [telnet.Interactive(r, w, address, password)] takes over both streams. *)
Definition call_telnet_Interactive (E : Env) (address password : string)
  : M (option string) :=
  fun st =>
    let '(err, unread, out) :=
      telnet_Interactive E (trace st) (r st) address password in
    (err, mkState unread (w st ++ out)
                  (trace st ++ [CallInteractive telnet address password])).

Definition call_logger_Write (E : Env) (name address command result : string)
  : M (option string) :=
  h <- history ;;
  record (CallLoggerWrite name address command result) ;;
  ret (logger_Write E h name address command result).

Definition call_NewConfig (E : Env) (name : string)
  : M (gmap string Session + string) :=
  h <- history ;;
  record (CallNewConfig name) ;;
  ret (config_NewConfig E h name).

(** ** The executor *)

(** The environment [e] of the config [cfg]: a Go map gives the zero value
    for a key it does not hold. *)
Definition env_of (cfg : gmap string Session) (e : string) : Session :=
  default (mkSession EmptyString EmptyString EmptyString EmptyString)
          (cfg !! e).

(** [NewSession] parses os args and config file for connection details to a
    remote server.  If the address and password flags were received the
    configuration file is ignored. *)
Definition NewSession (E : Env) (c : cli.Context)
  : M (Session * option error) :=
  let ses := mkSession (cli.a c) (cli.p c) (cli.t c) (cli.l c) in
  if negb (Address ses =? "") && negb (Password ses =? "") then
    ret (ses, None)
  else
    loaded <- call_NewConfig E (cli.cfg c) ;;
    match loaded with
    | inr err => ret (ses, Some (ErrCollaborator err))
    | inl cfg =>
        let e := if cli.e c =? "" then DefaultConfigEnv E else cli.e c in
        let ses :=
          if Address ses =? "" then setAddress (Address (env_of cfg e)) ses
          else ses in
        let ses :=
          if Password ses =? "" then setPassword (Password (env_of cfg e)) ses
          else ses in
        let ses :=
          if Log ses =? "" then setLog (Log (env_of cfg e)) ses else ses in
        let ses :=
          if Type_ ses =? "" then setType (Type_ (env_of cfg e)) ses
          else ses in
        ret (ses, None)
    end.

(** The client [Execute]'s switch on [ses.Type] selects. *)
Definition dispatch (E : Env) (ses : Session) : Client :=
  if Type_ ses =? ProtocolTELNET E then telnet
  else if Type_ ses =? ProtocolWebRCON E then websocket
  else rcon.

(** [Execute] sends command to Execute to the remote server and prints the
    response. *)
Definition Execute (E : Env) (ses : Session) (command : string)
  : M (option error) :=
  if command =? "" then ret (Some ErrCommandEmpty)
  else
    '(result, err) <-
      call_Execute E (dispatch E ses) (Address ses) (Password ses) command ;;
    result <-
      (if negb (result =? "") then
         let result := Go.TrimSpace result in
         print (Fprintln result) ;; ret result
       else ret result) ;;
    match err with
    | Some msg => ret (Some (ErrCollaborator msg))
    | None =>
        err <- call_logger_Write E (Log ses) (Address ses) command result ;;
        match err with
        | Some msg => ret (Some (ErrWriteLog msg))
        | None => ret None
        end
    end.

(** [CheckCredentials] sends auth request for remote server.  Returns en
    error if address or password is incorrect. *)
Definition CheckCredentials (E : Env) (ses : Session) : M (option error) :=
  if Type_ ses =? ProtocolWebRCON E then
    err <- call_websocket_CheckCredentials E (Address ses) (Password ses) ;;
    ret (failure err)
  else
    err <- call_rcon_CheckCredentials E (Address ses) (Password ses) ;;
    ret (failure err).

(** How the [for scanner.Scan()] loop of [Interactive] is left: [Scan]
    reported false, [break Loop], or [return err]. *)
Inductive Exit : Type :=
  | ScanEnd
  | BreakLoop
  | Return (err : error).

(** The body of [for scanner.Scan()], over the lines the scanner gives. *)
Fixpoint commandLoop (E : Env) (ses : Session) (lines : list string)
  : M Exit :=
  match lines with
  | [] => ret ScanEnd
  | command :: lines' =>
      if negb (command =? "") then
        if command =? CommandQuit then ret BreakLoop
        else
          err <- Execute E ses command ;;
          match err with
          | Some err => ret (Return err)
          | None => print (Fprint "> ") ;; commandLoop E ses lines'
          end
      else print (Fprint "> ") ;; commandLoop E ses lines'
  end.

(** What a run of the labelled loop gives: the error [Interactive] returns,
    or no answer within the number of rounds allowed. *)
Inductive Outcome : Type :=
  | OutOfFuel
  | Returned (err : option error).

Definition waitingFormat : string :=
  "Waiting commands for %s (or type %s to exit)" +:+ String Go.newline "> ".

Definition unsupportedFormat : string :=
  "Unsupported protocol type. Allowed %q, %q and %q protocols"
  +:+ String Go.newline EmptyString.

(** The loop labelled [Loop] of [Interactive]: [fuel] bounds the number of
    times its body is run, [attempt] is the local variable of that name.
    The session is changed in place; it is returned with the outcome. *)
Fixpoint Loop (E : Env) (fuel : nat) (attempt : nat) (ses : Session)
  : M (Outcome * Session) :=
  match fuel with
  | O => ret (OutOfFuel, ses)
  | S fuel' =>
      ses <-
        (if Type_ ses =? "" then
           print (Fprint "Enter protocol type (empty for rcon): ") ;;
           v <- Fscanln (Type_ ses) ;;
           ret (setType v ses)
         else ret ses) ;;
      if Type_ ses =? ProtocolTELNET E then
        err <- call_telnet_Interactive E (Address ses) (Password ses) ;;
        ret (Returned (failure err), ses)
      else if (Type_ ses =? "") || (Type_ ses =? ProtocolRCON E)
              || (Type_ ses =? ProtocolWebRCON E) then
        err <- CheckCredentials E ses ;;
        match err with
        | Some err => ret (Returned (Some err), ses)
        | None =>
            print (Fprintf waitingFormat [Address ses; CommandQuit]) ;;
            lines <- NewScanner ;;
            exit <- commandLoop E ses lines ;;
            match exit with
            | BreakLoop => ret (Returned None, ses)
            | Return err => ret (Returned (Some err), ses)
            | ScanEnd => Loop E fuel' attempt ses
            end
        end
      else
        let attempt := S attempt in
        let ses := setType "" ses in
        print (Fprintf unsupportedFormat
                 [ProtocolRCON E; ProtocolWebRCON E; ProtocolTELNET E]) ;;
        if (AttemptsLimit <=? attempt)%nat then
          ret (Returned (Some ErrToManyFails), ses)
        else Loop E fuel' attempt ses
  end.

(** [Interactive] reads stdin, parses commands, executes them on remote
    server and prints the responses. *)
Definition Interactive (E : Env) (fuel : nat) (ses : Session)
  : M (Outcome * Session) :=
  ses <-
    (if Address ses =? "" then
       print (Fprint "Enter remote host and port [ip:port]: ") ;;
       v <- Fscanln (Address ses) ;;
       ret (setAddress v ses)
     else ret ses) ;;
  ses <-
    (if Password ses =? "" then
       print (Fprint "Enter password: ") ;;
       v <- Fscanln (Password ses) ;;
       ret (setPassword v ses)
     else ret ses) ;;
  Loop E fuel 0 ses.

(** The action [init] gives the cli application: one command, or the
    interactive mode when none is given. *)
Definition Action (E : Env) (fuel : nat) (c : cli.Context) : M Outcome :=
  '(ses, err) <- NewSession E c ;;
  match err with
  | Some err => ret (Returned (Some err))
  | None =>
      if cli.command c =? "" then
        '(out, _) <- Interactive E fuel ses ;; ret out
      else if Address ses =? "" then ret (Returned (Some ErrEmptyAddress))
      else if Password ses =? "" then ret (Returned (Some ErrEmptyPassword))
      else err <- Execute E ses (cli.command c) ;; ret (Returned err)
  end.

(** ** Vocabulary of the statements *)

(** [s] followed by a line feed. *)
Definition line (s : string) : string := s +:+ String Go.newline EmptyString.

(** White space only. *)
Fixpoint blank (s : string) : bool :=
  match s with
  | EmptyString => true
  | String c s' => Go.isSpace c && blank s'
  end.

(** White space at the start, at the end. *)
Definition startsWithSpace (s : string) : bool :=
  match s with
  | EmptyString => false
  | String c _ => Go.isSpace c
  end.

Fixpoint endsWithSpace (s : string) : bool :=
  match s with
  | EmptyString => false
  | String c EmptyString => Go.isSpace c
  | String _ s' => endsWithSpace s'
  end.

Fixpoint noSpace (s : string) : bool :=
  match s with
  | EmptyString => true
  | String c s' => negb (Go.isSpace c) && noSpace s'
  end.

(** ASCII text: every byte is below 128.  On such text a byte is a
    character, for [fmt] and for [strings] as for the functions of [Go]. *)
Definition isASCII (c : ascii) : bool := (N_of_ascii c <? 128)%N.

Fixpoint asciiOnly (s : string) : bool :=
  match s with
  | EmptyString => true
  | String c s' => isASCII c && asciiOnly s'
  end.

(** A word: what a user types on one line for [Fscanln] to give back, in
    ASCII and without white space. *)
Definition word (s : string) : bool :=
  negb (s =? "") && noSpace s && asciiOnly s.

(** The protocol names are words: a user can type them. *)
Definition protocol_words (E : Env) : Prop :=
  word (ProtocolRCON E) = true
  /\ word (ProtocolWebRCON E) = true
  /\ word (ProtocolTELNET E) = true.

(** An entry the negotiation rejects: a word, in ASCII as every word is,
    that is none of the three protocol names. *)
Definition invalid (E : Env) (x : string) : Prop :=
  word x = true
  /\ x <> ProtocolTELNET E /\ x <> ProtocolRCON E /\ x <> ProtocolWebRCON E.

(** The types with which [Interactive] runs the command loop itself. *)
Definition own_protocol (E : Env) (type : string) : Prop :=
  type = "" \/ type = ProtocolRCON E \/ type = ProtocolWebRCON E.

Definition typePrompt : Print :=
  Fprint "Enter protocol type (empty for rcon): ".

Definition unsupported (E : Env) : Print :=
  Fprintf unsupportedFormat
    [ProtocolRCON E; ProtocolWebRCON E; ProtocolTELNET E].

(** The session and the state once a round of the loop has asked for the
    protocol type, which it does when the type is empty. *)
Definition asked (ses : Session) (st : State) : Session * State :=
  if Type_ ses =? "" then
    let '(v, rest) := Go.Fscanln (r st) (Type_ ses) in
    (setType v ses, mkState rest (w st ++ [typePrompt]) (trace st))
  else (ses, st).

(** The result [Execute] prints and logs: the client's answer with the
    white space around it removed, when the answer is not empty. *)
Definition shown (raw : string) : string :=
  if raw =? "" then raw else Go.TrimSpace raw.

(** The calls [Execute] adds to the trace: one call of the client [c],
    followed by nothing but a call of the logger. *)
Definition calls_client (c : Client) (E : Env) (ses : Session)
    (command : string) (st : State) : Prop :=
  exists after,
    trace (Execute E ses command st).2 =
      (trace st ++
       CallExecute c (Address ses) (Password ses) command :: after)%list
    /\ forall ev, ev ∈ after ->
         exists result,
           ev = CallLoggerWrite (Log ses) (Address ses) command result.

(** [appends P st st']: the trace of [st'] is that of [st] followed by
    calls that all satisfy [P]. *)
Definition appends (P : Event -> Prop) (st st' : State) : Prop :=
  exists evs, trace st' = (trace st ++ evs)%list /\ Forall P evs.

(** A computation that adds only calls that satisfy [P]. *)
Definition preserves (P : Event -> Prop) {A : Type} (c : M A) : Prop :=
  forall st, appends P st (c st).2.

(** The first call made after [st] is [ev]. *)
Definition first_call (st st' : State) (ev : Event) : Prop :=
  exists after, trace st' = (trace st ++ ev :: after)%list.

(** A call that is not the dispatch of the quit command. *)
Definition not_quit (ev : Event) : Prop :=
  forall c address password, ev <> CallExecute c address password CommandQuit.

(** The calls of [Execute]: to a client's [Execute] and to the logger. *)
Definition command_call (ev : Event) : Prop :=
  match ev with
  | CallExecute _ _ _ _ | CallLoggerWrite _ _ _ _ => True
  | _ => False
  end.

(** The number of credential checks in a trace. *)
Fixpoint checks (tr : list Event) : nat :=
  match tr with
  | [] => 0
  | CallCheckCredentials _ _ _ :: tr' => S (checks tr')
  | _ :: tr' => checks tr'
  end.

(** The server accepts the credentials whenever it is asked. *)
Definition accepts_credentials (E : Env) : Prop :=
  forall h address password,
    rcon_CheckCredentials E h address password = None
    /\ websocket_CheckCredentials E h address password = None.

(** No command fails, and the logger neither. *)
Definition never_fails (E : Env) : Prop :=
  (forall c h address password command,
      (client_Execute E c h address password command).2 = None)
  /\ (forall h name address command result,
         logger_Write E h name address command result = None).

(** *** Concrete collaborators and inputs, for the examples *)

(** A server that accepts the credentials and answers every command with
    [answer]; no config file can be loaded and the logger succeeds. *)
Definition server (answer : string) : Env :=
  mkEnv "rcon" "web" "telnet" "default"
    (fun _ _ => inr "open rcon.yaml: no such file or directory")
    (fun _ _ _ _ => (answer, None))
    (fun _ _ _ _ => (answer, None))
    (fun _ _ _ _ => (answer, None))
    (fun _ _ _ => None)
    (fun _ _ _ => None)
    (fun _ inp _ _ => (None, inp, []))
    (fun _ _ _ _ _ => None).

(** A server that cannot be reached: every client call fails. *)
Definition unreachable : Env :=
  mkEnv "rcon" "web" "telnet" "default"
    (fun _ _ => inr "open rcon.yaml: no such file or directory")
    (fun _ _ _ _ => (EmptyString, Some "connection refused"))
    (fun _ _ _ _ => (EmptyString, Some "connection refused"))
    (fun _ _ _ _ => (EmptyString, Some "connection refused"))
    (fun _ _ _ => Some "connection refused")
    (fun _ _ _ => Some "connection refused")
    (fun _ inp _ _ => (Some "connection refused", inp, []))
    (fun _ _ _ _ _ => None).

(** The server of [server], with a config file of one environment. *)
Definition configured (name : string) (env : Session) : Env :=
  mkEnv "rcon" "web" "telnet" "default"
    (fun _ _ => inl {[ name := env ]})
    (fun _ _ _ _ => ("ok", None))
    (fun _ _ _ _ => ("ok", None))
    (fun _ _ _ _ => ("ok", None))
    (fun _ _ _ => None)
    (fun _ _ _ => None)
    (fun _ inp _ _ => (None, inp, []))
    (fun _ _ _ _ _ => None).

(** The state at the start: [input] to read, nothing written, no call. *)
Definition start (input : string) : State := mkState input [] [].

Definition local : Session :=
  mkSession "127.0.0.1:16260" "secret" EmptyString "rcon.log".

Definition production : Session :=
  mkSession "10.0.0.7:25575" "hunter2" "telnet" "production.log".

Definition flags (address password type log : string) : cli.Context :=
  cli.mkContext address password type log EmptyString EmptyString EmptyString.

(** Two blanks, OK and a line feed. *)
Definition okAnswer : string := line "  OK".

(** *** Further vocabulary: sessions, commands and modes *)

Definition addressPrompt : Print :=
  Fprint "Enter remote host and port [ip:port]: ".

Definition passwordPrompt : Print := Fprint "Enter password: ".

(** The session and the state once [Interactive] has asked for the address
    and the password, each of which it asks for when it is empty. *)
Definition prompted (ses : Session) (st : State) : Session * State :=
  let '(ses1, st1) :=
    if Address ses =? "" then
      let '(v, rest) := Go.Fscanln (r st) (Address ses) in
      (setAddress v ses, mkState rest (w st ++ [addressPrompt]) (trace st))
    else (ses, st) in
  if Password ses1 =? "" then
    let '(v, rest) := Go.Fscanln (r st1) (Password ses1) in
    (setPassword v ses1,
     mkState rest (w st1 ++ [passwordPrompt]) (trace st1))
  else (ses1, st1).

(** A call made for the session [ses]: a client is given its address and
    its password, the logger its log path and its address. *)
Definition of_session (ses : Session) (ev : Event) : Prop :=
  match ev with
  | CallExecute _ address password _
  | CallCheckCredentials _ address password
  | CallInteractive _ address password =>
      address = Address ses /\ password = Password ses
  | CallLoggerWrite name address _ _ =>
      name = Log ses /\ address = Address ses
  | CallNewConfig _ => False
  end.

(** The fields of a session that the loop never writes. *)
Definition same_endpoint (ses ses' : Session) : Prop :=
  Address ses' = Address ses /\ Password ses' = Password ses
  /\ Log ses' = Log ses.

(** The commands given to the clients' [Execute] in a trace, in order. *)
Fixpoint executed (tr : list Event) : list string :=
  match tr with
  | [] => []
  | CallExecute _ _ _ command :: tr' => command :: executed tr'
  | _ :: tr' => executed tr'
  end.

(** The lines before the first quit command. *)
Fixpoint beforeQuit (lines : list string) : list string :=
  match lines with
  | [] => []
  | l :: lines' =>
      if l =? CommandQuit then [] else l :: beforeQuit lines'
  end.

(** The commands among lines: the lines that are not empty. *)
Fixpoint commands (lines : list string) : list string :=
  match lines with
  | [] => []
  | l :: lines' => if l =? "" then commands lines' else l :: commands lines'
  end.

(** The calls of the single mode for [command]: the config loader, one
    client's [Execute] with that command and a full endpoint, the logger. *)
Definition single_call (command : string) (ev : Event) : Prop :=
  match ev with
  | CallExecute _ address password command' =>
      address <> "" /\ password <> "" /\ command' = command
  | CallLoggerWrite _ _ _ _ | CallNewConfig _ => True
  | CallCheckCredentials _ _ _ | CallInteractive _ _ _ => False
  end.

(** The server of [server], with a logger that cannot write. *)
Definition unlogged (answer : string) : Env :=
  mkEnv "rcon" "web" "telnet" "default"
    (fun _ _ => inr "open rcon.yaml: no such file or directory")
    (fun _ _ _ _ => (answer, None))
    (fun _ _ _ _ => (answer, None))
    (fun _ _ _ _ => (answer, None))
    (fun _ _ _ => None)
    (fun _ _ _ => None)
    (fun _ inp _ _ => (None, inp, []))
    (fun _ _ _ _ _ => Some "permission denied").

(** A server that accepts the credentials and answers every command but
    one, on which the connection is lost. *)
Definition fragile (fatal : string) : Env :=
  let answer := fun command : string =>
    if command =? fatal then (EmptyString, Some "connection reset")
    else ("ok", None) in
  mkEnv "rcon" "web" "telnet" "default"
    (fun _ _ => inr "open rcon.yaml: no such file or directory")
    (fun _ _ _ command => answer command)
    (fun _ _ _ command => answer command)
    (fun _ _ _ command => answer command)
    (fun _ _ _ => None)
    (fun _ _ _ => None)
    (fun _ inp _ _ => (None, inp, []))
    (fun _ _ _ _ _ => None).

(** A type the negotiation rejects, wherever it comes from. *)
Definition unknown_type (E : Env) (type : string) : Prop :=
  type <> "" /\ type <> ProtocolTELNET E
  /\ type <> ProtocolRCON E /\ type <> ProtocolWebRCON E.

(** The input of a user who types the entries in turn, one on a line. *)
Fixpoint feed (entries : list string) : string :=
  match entries with
  | [] => EmptyString
  | x :: entries' => line x +:+ feed entries'
  end.

(** What a round of the loop makes of the session and of the input [inp]
    when it asks for the protocol type: the session and the input left. *)
Definition readType (ses : Session) (inp : string) : Session * string :=
  if Type_ ses =? "" then
    let '(v, rest) := Go.Fscanln inp (Type_ ses) in (setType v ses, rest)
  else (ses, inp).

Definition banner (ses : Session) : Print :=
  Fprintf waitingFormat [Address ses; CommandQuit].

(** The state in which the command loop starts, when the credentials are
    checked in [st] and accepted: the banner is printed and the scanner is
    made. *)
Definition loopEntry (E : Env) (ses : Session) (st : State) : State :=
  let st1 := (CheckCredentials E ses st).2 in
  mkState (Go.ScanLines 0 EmptyString (r st1)).2
    (w st1 ++ [banner ses]) (trace st1).

(** The lines the scanner gives the command loop on the input [inp]. *)
Definition scanned (inp : string) : list string :=
  (Go.ScanLines 0 EmptyString inp).1.

(** ** White space *)

Arguments Go.isSpace : simpl never.

Lemma append_String (c : ascii) (x y : string) :
  String c x +:+ y = String c (x +:+ y).
Proof. reflexivity. Qed.

Lemma TrimSpace_blank (s : string) : blank s = true -> Go.TrimSpace s = "".
Proof.
  unfold Go.TrimSpace. induction s as [|c s IH]; cbn; [reflexivity|].
  intros H. apply andb_prop in H as [Hc Hs]. rewrite Hc. now apply IH.
Qed.

Lemma trimLeading_spec (s : string) :
  exists pre,
    blank pre = true /\ s = pre +:+ Go.trimLeading s
    /\ startsWithSpace (Go.trimLeading s) = false.
Proof.
  induction s as [|c s (pre & Hpre & Hs & Hstart)].
  - exists "". repeat split.
  - cbn [Go.trimLeading]. destruct (Go.isSpace c) eqn:Hc.
    + exists (String c pre). cbn [blank]. rewrite Hc, Hpre, append_String.
      rewrite <- Hs. repeat split. exact Hstart.
    + exists "". repeat split. exact Hc.
Qed.

Lemma trimTrailing_spec (s : string) :
  exists post,
    blank post = true /\ s = Go.trimTrailing s +:+ post
    /\ endsWithSpace (Go.trimTrailing s) = false
    /\ (startsWithSpace s = false ->
        startsWithSpace (Go.trimTrailing s) = false).
Proof.
  induction s as [|c s (post & Hpost & Hs & Hend & _)].
  - exists "". repeat split.
  - cbn [Go.trimTrailing]. destruct (Go.trimTrailing s) as [|d t] eqn:Ht.
    + destruct (Go.isSpace c) eqn:Hc.
      * exists (String c post). cbn [blank]. rewrite Hc, Hpost.
        change ("" +:+ post) with post in Hs. subst s. repeat split.
      * exists post. change ("" +:+ post) with post in Hs. subst s.
        repeat split; try assumption. intros _. exact Hc.
    + exists post. rewrite append_String, <- Hs. repeat split; auto.
Qed.

(** [strings.TrimSpace] takes white space off both ends, and all of it. *)
Lemma TrimSpace_spec (s : string) :
  (exists pre post,
      blank pre = true /\ blank post = true
      /\ s = pre +:+ Go.TrimSpace s +:+ post)
  /\ startsWithSpace (Go.TrimSpace s) = false
  /\ endsWithSpace (Go.TrimSpace s) = false.
Proof.
  unfold Go.TrimSpace.
  destruct (trimLeading_spec s) as (pre & Hpre & Hs & Hstart).
  destruct (trimTrailing_spec (Go.trimLeading s))
    as (post & Hpost & Ht & Hend & Hk).
  split; [|split; auto].
  exists pre, post. repeat split; try assumption.
  rewrite <- Ht. exact Hs.
Qed.

(** ** Properties of [Execute] *)

Lemma eqb_empty (s : string) : (s =? "") = false <-> s <> "".
Proof. apply String.eqb_neq. Qed.

(** What a call of [Execute] with a command does, in one equation. *)
Lemma Execute_eq (E : Env) (ses : Session) (command : string) (st : State) :
  command <> "" ->
  Execute E ses command st =
  let c := dispatch E ses in
  let '(raw, err) :=
    client_Execute E c (trace st) (Address ses) (Password ses) command in
  let result := if raw =? "" then raw else Go.TrimSpace raw in
  let out := if raw =? "" then w st else (w st ++ [Fprintln result])%list in
  let tr :=
    (trace st ++ [CallExecute c (Address ses) (Password ses) command])%list in
  match err with
  | Some msg => (Some (ErrCollaborator msg), mkState (r st) out tr)
  | None =>
      (match logger_Write E tr (Log ses) (Address ses) command result with
       | Some msg => Some (ErrWriteLog msg)
       | None => None
       end,
       mkState (r st) out
         (tr ++ [CallLoggerWrite (Log ses) (Address ses) command result])%list)
  end.
Proof.
  intros Hc. apply eqb_empty in Hc.
  unfold Execute, call_Execute, call_logger_Write, bind, ret, history,
    record, print.
  rewrite Hc. cbn.
  destruct (client_Execute E (dispatch E ses) (trace st) (Address ses)
              (Password ses) command) as [raw [msg|]];
    destruct (raw =? "") eqn:Hraw; cbn; try reflexivity;
    destruct (logger_Write E _ _ _ _ _); reflexivity.
Qed.

(** C8. [Execute] with an empty command returns [ErrCommandEmpty], a value
    no collaborator error is equal to, and leaves the state as it is: no
    client is called, nothing is printed, nothing is logged. *)
Theorem Execute_empty_command (E : Env) (ses : Session) (st : State) :
  Execute E ses "" st = (Some ErrCommandEmpty, st)
  /\ (forall msg, ErrCommandEmpty <> ErrCollaborator msg)
  /\ (forall msg, ErrCommandEmpty <> ErrWriteLog msg).
Proof. repeat split; intros; discriminate. Qed.

Lemma dispatch_cases (E : Env) (ses : Session) :
  (Type_ ses = ProtocolTELNET E -> dispatch E ses = telnet)
  /\ (Type_ ses <> ProtocolTELNET E -> Type_ ses = ProtocolWebRCON E ->
      dispatch E ses = websocket)
  /\ (Type_ ses <> ProtocolTELNET E -> Type_ ses <> ProtocolWebRCON E ->
      dispatch E ses = rcon).
Proof.
  unfold dispatch. repeat split.
  - intros ->. now rewrite String.eqb_refl.
  - intros Ht Hw. apply String.eqb_neq in Ht. rewrite Ht, Hw.
    now rewrite String.eqb_refl.
  - intros Ht Hw. apply String.eqb_neq in Ht, Hw. now rewrite Ht, Hw.
Qed.

Lemma Execute_calls_dispatch (E : Env) (ses : Session) (command : string)
    (st : State) :
  command <> "" -> calls_client (dispatch E ses) E ses command st.
Proof.
  intros Hc. unfold calls_client. rewrite (Execute_eq E ses command st Hc).
  cbv zeta.
  destruct (client_Execute E (dispatch E ses) (trace st) (Address ses)
              (Password ses) command) as [raw [msg|]]; cbn.
  - exists []. split; [reflexivity|]. intros ev Hev. inversion Hev.
  - eexists [_]. rewrite <- app_assoc. split; [reflexivity|].
    intros ev Hev. apply list_elem_of_singleton in Hev. eauto.
Qed.

(** C5. [Execute] dispatches on the session's type: the telnet name goes to
    the telnet client, the webrcon name to the websocket client, every other
    value to the rcon client; the empty type and any unknown name are among
    the other values. *)
Theorem Execute_dispatch (E : Env) (ses : Session) (command : string)
    (st : State) :
  distinct_protocols E ->
  command <> "" ->
  (Type_ ses = ProtocolTELNET E -> calls_client telnet E ses command st)
  /\ (Type_ ses = ProtocolWebRCON E ->
      calls_client websocket E ses command st)
  /\ (Type_ ses <> ProtocolTELNET E -> Type_ ses <> ProtocolWebRCON E ->
      calls_client rcon E ses command st)
  /\ (Type_ ses = "" -> calls_client rcon E ses command st).
Proof.
  intros Hd Hc.
  pose proof (Execute_calls_dispatch E ses command st Hc) as H.
  destruct (dispatch_cases E ses) as (Ht & Hw & Hr).
  unfold distinct_protocols in Hd.
  apply NoDup_cons in Hd as [Hd1 Hd2]. apply NoDup_cons in Hd2 as [Hd2 _].
  repeat split.
  - intros Heq. now rewrite <- (Ht Heq).
  - intros Heq. rewrite <- (Hw); [assumption| |assumption].
    intros Heq'. apply Hd1. rewrite <- Heq', Heq. set_solver.
  - intros H1 H2. now rewrite <- (Hr H1 H2).
  - intros Heq. rewrite <- Hr; [assumption| |].
    + intros Heq'. apply Hd1. rewrite <- Heq', Heq. set_solver.
    + intros Heq'. apply Hd2. rewrite <- Heq', Heq. set_solver.
Qed.

Lemma server_distinct (answer : string) : distinct_protocols (server answer).
Proof. apply (bool_decide_unpack _). vm_compute. reflexivity. Qed.

Lemma Execute_dispatch_witness :
  let E := server "ok" in
  let ses := setType "web" local in
  distinct_protocols E /\ "status" <> "" /\
  ((Type_ ses = ProtocolTELNET E ->
    calls_client telnet E ses "status" (start ""))
   /\ (Type_ ses = ProtocolWebRCON E ->
       calls_client websocket E ses "status" (start ""))
   /\ (Type_ ses <> ProtocolTELNET E -> Type_ ses <> ProtocolWebRCON E ->
       calls_client rcon E ses "status" (start ""))
   /\ (Type_ ses = "" -> calls_client rcon E ses "status" (start ""))).
Proof.
  split; [apply server_distinct|].
  split; [discriminate|].
  apply (Execute_dispatch (server "ok") (setType "web" local) "status"
           (start "")).
  - apply server_distinct.
  - discriminate.
Defined.

(** C1, as the code has it.  When the protocol client succeeds, [Execute]
    calls the log sink with the path, the address, the command and the
    trimmed result, whatever the path is; when the client fails, [Execute]
    returns the client's error and the log sink is not called. *)
Theorem Execute_logs_after_success (E : Env) (ses : Session)
    (command : string) (st : State) :
  command <> "" ->
  let c := dispatch E ses in
  let call := CallExecute c (Address ses) (Password ses) command in
  let '(raw, err) :=
    client_Execute E c (trace st) (Address ses) (Password ses) command in
  let '(res, st') := Execute E ses command st in
  match err with
  | None =>
      trace st' =
        (trace st ++
         [call; CallLoggerWrite (Log ses) (Address ses) command (shown raw)])
        %list
  | Some msg =>
      res = Some (ErrCollaborator msg) /\ trace st' = (trace st ++ [call])%list
  end.
Proof.
  intros Hc. cbv zeta. rewrite (Execute_eq E ses command st Hc). cbv zeta.
  destruct (client_Execute E (dispatch E ses) (trace st) (Address ses)
              (Password ses) command) as [raw [msg|]]; cbn.
  - split; reflexivity.
  - now rewrite <- app_assoc.
Qed.

Lemma Execute_logs_after_success_witness :
  "status" <> "" /\
  trace (Execute (server "ok") local "status" (start "")).2 =
    [CallExecute rcon "127.0.0.1:16260" "secret" "status";
     CallLoggerWrite "rcon.log" "127.0.0.1:16260" "status" "ok"].
Proof.
  split; [discriminate|].
  exact (Execute_logs_after_success (server "ok") local "status" (start "")
           ltac:(discriminate)).
Defined.

(** C1 as the specification states it fails: with a log path set and the
    server out of reach, [Execute] returns the client's error and the log
    sink is not called at all. *)
Lemma Execute_failed_not_logged :
  let '(res, st') := Execute unreachable local "status" (start "") in
  Log local <> ""
  /\ res = Some (ErrCollaborator "connection refused")
  /\ trace st' = [CallExecute rcon "127.0.0.1:16260" "secret" "status"]
  /\ forall name address command result,
       CallLoggerWrite name address command result ∉ trace st'.
Proof.
  cbn. repeat split; try discriminate.
  intros name address command result Hin.
  apply list_elem_of_singleton in Hin. discriminate.
Qed.

(** C7. [Execute] trims the client's result before it prints and logs it.
    A result that is not empty is printed, and logged when the client
    succeeded, as [strings.TrimSpace] gives it.  For a result in ASCII that
    is the result without the white space at its two ends: what is taken
    off at either end is white space only, and what is left neither starts
    nor ends with white space.  For the answer of two blanks, OK and a line
    feed, the line printed is OK and the result handed to the log sink is
    OK. *)
Theorem Execute_trims_result (E : Env) (ses : Session) (command : string)
    (st : State) (raw : string) (err : option string) :
  command <> "" ->
  client_Execute E (dispatch E ses) (trace st) (Address ses) (Password ses)
    command = (raw, err) ->
  raw <> "" ->
  let st' := (Execute E ses command st).2 in
  let result := Go.TrimSpace raw in
  w st' = (w st ++ [Fprintln result])%list
  /\ (err = None ->
      trace st' =
        (trace st ++
         [CallExecute (dispatch E ses) (Address ses) (Password ses) command;
          CallLoggerWrite (Log ses) (Address ses) command result])%list)
  /\ (asciiOnly raw = true ->
      (exists pre post,
          blank pre = true /\ blank post = true
          /\ raw = pre +:+ result +:+ post)
      /\ startsWithSpace result = false
      /\ endsWithSpace result = false)
  /\ (raw = okAnswer -> result = "OK").
Proof.
  intros Hc Hraw Hne. cbv zeta. rewrite (Execute_eq E ses command st Hc).
  cbv zeta. rewrite Hraw. apply String.eqb_neq in Hne. rewrite Hne.
  destruct (TrimSpace_spec raw) as (Hparts & Hstart & Hend).
  split; [destruct err; reflexivity|].
  split; [intros ->; now rewrite <- app_assoc|].
  split; [intros _; auto|].
  intros ->. reflexivity.
Qed.

Lemma Execute_trims_result_witness :
  let E := server okAnswer in
  let st' := (Execute E local "status" (start "")).2 in
  ("status" <> ""
   /\ client_Execute E (dispatch E local) [] (Address local) (Password local)
        "status" = (okAnswer, None)
   /\ okAnswer <> ""
   /\ asciiOnly okAnswer = true)
  /\ w st' = [Fprintln "OK"]
  /\ trace st' =
       [CallExecute rcon "127.0.0.1:16260" "secret" "status";
        CallLoggerWrite "rcon.log" "127.0.0.1:16260" "status" "OK"]
  /\ (exists pre post,
        blank pre = true /\ blank post = true
        /\ okAnswer = pre +:+ "OK" +:+ post).
Proof.
  cbv zeta.
  assert (Hc : "status" <> "") by discriminate.
  assert (Hne : okAnswer <> "") by discriminate.
  assert (Hascii : asciiOnly okAnswer = true) by reflexivity.
  destruct (Execute_trims_result (server okAnswer) local "status" (start "")
              okAnswer None Hc eq_refl Hne) as (Hw & Htr & Hparts & _).
  exact (conj (conj Hc (conj eq_refl (conj Hne Hascii)))
           (conj Hw (conj (Htr eq_refl) (proj1 (Hparts Hascii))))).
Defined.

(** The writer after [Execute]. *)
Lemma Execute_w (E : Env) (ses : Session) (command : string) (st : State) :
  command <> "" ->
  let raw :=
    (client_Execute E (dispatch E ses) (trace st) (Address ses)
       (Password ses) command).1 in
  w (Execute E ses command st).2 =
    if raw =? "" then w st
    else (w st ++ [Fprintln (Go.TrimSpace raw)])%list.
Proof.
  intros Hc. cbv zeta. rewrite (Execute_eq E ses command st Hc). cbv zeta.
  destruct (client_Execute E (dispatch E ses) (trace st) (Address ses)
              (Password ses) command) as [raw [msg|]];
    cbn; destruct (raw =? ""); reflexivity.
Qed.

(** C10. [Execute] prints if and only if the answer of the client is not
    the empty string, with or without an error: for the empty answer the
    writer is left as it was, for any other it gets one more line, and that
    line is empty when the answer is white space only. *)
Theorem Execute_prints_nonempty_result (E : Env) (ses : Session)
    (command : string) (st : State) :
  command <> "" ->
  let raw :=
    (client_Execute E (dispatch E ses) (trace st) (Address ses)
       (Password ses) command).1 in
  let st' := (Execute E ses command st).2 in
  (raw = "" -> w st' = w st)
  /\ (raw <> "" -> w st' = (w st ++ [Fprintln (Go.TrimSpace raw)])%list)
  /\ (raw <> "" -> blank raw = true ->
      w st' = (w st ++ [Fprintln ""])%list)
  /\ (w st' = w st <-> raw = "").
Proof.
  intros Hc. cbv zeta. rewrite (Execute_w E ses command st Hc). cbv zeta.
  destruct (_ =? "") eqn:Hraw.
  - apply String.eqb_eq in Hraw. repeat split; try congruence; auto.
  - apply String.eqb_neq in Hraw. repeat split; try congruence; auto.
    + intros _ Hb. now rewrite (TrimSpace_blank _ Hb).
    + intros Heq. exfalso.
      apply (f_equal length) in Heq. rewrite length_app in Heq.
      cbn in Heq. lia.
Qed.

Lemma Execute_prints_nonempty_result_witness :
  let E := server (line " ") in
  let raw :=
    (client_Execute E (dispatch E local) [] (Address local) (Password local)
       "status").1 in
  let st' := (Execute E local "status" (start "")).2 in
  "status" <> ""
  /\ (raw = "" -> w st' = [])
  /\ (raw <> "" -> w st' = [Fprintln (Go.TrimSpace raw)])
  /\ (raw <> "" -> blank raw = true -> w st' = [Fprintln ""])
  /\ (w st' = [] <-> raw = "").
Proof.
  split; [discriminate|].
  exact (Execute_prints_nonempty_result (server (line " ")) local "status"
           (start "") ltac:(discriminate)).
Defined.

(** ** Properties of [NewSession] *)

(** C4. With the address and the password both given as flags, [NewSession]
    returns the session built from the flags and no error, and leaves the
    state as it is: [config.NewConfig] is not called.  The answer is the
    same for every collaborator, so for every state of the config file. *)
Theorem NewSession_flags_skip_config (E : Env) (c : cli.Context)
    (st : State) :
  cli.a c <> "" ->
  cli.p c <> "" ->
  NewSession E c st =
    (mkSession (cli.a c) (cli.p c) (cli.t c) (cli.l c), None, st)
  /\ forall E' : Env, NewSession E' c st = NewSession E c st.
Proof.
  intros Ha Hp. apply String.eqb_neq in Ha, Hp.
  unfold NewSession. cbn. rewrite Ha, Hp. cbn. split; reflexivity.
Qed.

Lemma NewSession_flags_skip_config_witness :
  let c := flags "127.0.0.1:16260" "secret" "" "" in
  cli.a c <> "" /\ cli.p c <> "" /\
  (NewSession unreachable c (start "") =
     (mkSession "127.0.0.1:16260" "secret" "" "", None, start "")
   /\ forall E' : Env,
        NewSession E' c (start "") = NewSession unreachable c (start "")).
Proof.
  split; [discriminate|]. split; [discriminate|].
  apply (NewSession_flags_skip_config unreachable
           (flags "127.0.0.1:16260" "secret" "" "") (start ""));
    discriminate.
Defined.

(** When [NewSession] goes to the config and the config loads. *)
Lemma NewSession_config_eq (E : Env) (c : cli.Context) (st : State)
    (cfg : gmap string Session) :
  cli.a c = "" \/ cli.p c = "" ->
  config_NewConfig E (trace st) (cli.cfg c) = inl cfg ->
  let env :=
    env_of cfg (if cli.e c =? "" then DefaultConfigEnv E else cli.e c) in
  NewSession E c st =
    (mkSession
       (if cli.a c =? "" then Address env else cli.a c)
       (if cli.p c =? "" then Password env else cli.p c)
       (if cli.t c =? "" then Type_ env else cli.t c)
       (if cli.l c =? "" then Log env else cli.l c),
     None,
     mkState (r st) (w st) (trace st ++ [CallNewConfig (cli.cfg c)])).
Proof.
  intros Hflags Hload. cbv zeta.
  assert (Hskip : negb (cli.a c =? "") && negb (cli.p c =? "") = false).
  { destruct Hflags as [H | H]; rewrite H; cbn; [reflexivity|].
    apply andb_false_r. }
  unfold NewSession, call_NewConfig, bind, ret, history, record.
  cbn [Address Password]. rewrite Hskip. cbn [trace]. rewrite Hload.
  unfold setAddress, setPassword, setLog, setType.
  destruct (cli.a c =? ""); cbn [Address Password Type_ Log];
    destruct (cli.p c =? ""); cbn [Address Password Type_ Log];
    destruct (cli.l c =? ""); cbn [Address Password Type_ Log];
    destruct (cli.t c =? ""); reflexivity.
Qed.

(** C6. When [NewSession] consults the config, each of the four fields is
    resolved on its own: a flag that is not empty gives the field, and an
    empty flag leaves it to the selected environment of the config (the one
    the env flag names, the default environment for an empty flag). *)
Theorem NewSession_precedence (E : Env) (c : cli.Context) (st : State)
    (cfg : gmap string Session) :
  cli.a c = "" \/ cli.p c = "" ->
  config_NewConfig E (trace st) (cli.cfg c) = inl cfg ->
  let env :=
    env_of cfg (if cli.e c =? "" then DefaultConfigEnv E else cli.e c) in
  let ses := (NewSession E c st).1.1 in
  (cli.a c <> "" -> Address ses = cli.a c)
  /\ (cli.a c = "" -> Address ses = Address env)
  /\ (cli.p c <> "" -> Password ses = cli.p c)
  /\ (cli.p c = "" -> Password ses = Password env)
  /\ (cli.l c <> "" -> Log ses = cli.l c)
  /\ (cli.l c = "" -> Log ses = Log env)
  /\ (cli.t c <> "" -> Type_ ses = cli.t c)
  /\ (cli.t c = "" -> Type_ ses = Type_ env).
Proof.
  intros Hflags Hload. cbv zeta.
  rewrite (NewSession_config_eq E c st cfg Hflags Hload). cbn.
  repeat split; intros H;
    try (apply String.eqb_neq in H; now rewrite H);
    try (apply String.eqb_eq in H; now rewrite H).
Qed.

Lemma NewSession_precedence_witness :
  let E := configured "default" production in
  let c := flags "" "" "web" "" in
  let ses := (NewSession E c (start "")).1.1 in
  (cli.a c = "" \/ cli.p c = "")
  /\ config_NewConfig E [] (cli.cfg c) = inl {[ "default" := production ]}
  /\ ses = mkSession "10.0.0.7:25575" "hunter2" "web" "production.log"
  /\ ((cli.a c <> "" -> Address ses = cli.a c)
      /\ (cli.a c = "" -> Address ses = Address production)
      /\ (cli.p c <> "" -> Password ses = cli.p c)
      /\ (cli.p c = "" -> Password ses = Password production)
      /\ (cli.l c <> "" -> Log ses = cli.l c)
      /\ (cli.l c = "" -> Log ses = Log production)
      /\ (cli.t c <> "" -> Type_ ses = cli.t c)
      /\ (cli.t c = "" -> Type_ ses = Type_ production)).
Proof.
  split; [now left|]. split; [reflexivity|]. split; [reflexivity|].
  exact (NewSession_precedence (configured "default" production)
           (flags "" "" "web" "") (start "") {[ "default" := production ]}
           (or_introl eq_refl) eq_refl).
Defined.

(** ** Reading lines *)

Lemma not_space_not_newline (c : ascii) :
  Go.isSpace c = false -> Ascii.eqb c Go.newline = false.
Proof.
  intros Hc. destruct (Ascii.eqb c Go.newline) eqn:Heq; [|reflexivity].
  apply Ascii.eqb_eq in Heq. subst c. discriminate.
Qed.

Lemma line_append (x rest : string) :
  line x +:+ rest = x +:+ String Go.newline rest.
Proof.
  unfold line. induction x as [|c x IH]; [reflexivity|].
  rewrite !append_String. now rewrite IH.
Qed.

Lemma token_word (x rest : string) :
  noSpace x = true ->
  Go.token (x +:+ String Go.newline rest) = (x, String Go.newline rest).
Proof.
  induction x as [|c x IH]; intros Hx; [reflexivity|].
  cbn [noSpace] in Hx. apply andb_prop in Hx as [Hc Hx].
  apply negb_true_iff in Hc. rewrite append_String. cbn.
  rewrite Hc, (IH Hx). reflexivity.
Qed.

(** [Fscanln] on a line that holds one word gives the word and takes the
    line, line feed included. *)
Lemma Fscanln_word (x rest old : string) :
  word x = true -> Go.Fscanln (line x +:+ rest) old = (x, rest).
Proof.
  unfold word. intros Hx. apply andb_prop in Hx as [Hx _].
  apply andb_prop in Hx as [Hne Hx].
  rewrite line_append.
  unfold Go.Fscanln. destruct x as [|c x]; [discriminate|].
  pose proof Hx as Hx'. cbn [noSpace] in Hx'. apply andb_prop in Hx' as [Hc _].
  apply negb_true_iff in Hc.
  rewrite append_String. cbn.
  rewrite (not_space_not_newline c Hc), Hc, <- append_String.
  rewrite (token_word _ rest Hx). cbn. reflexivity.
Qed.

(** On an empty line the operand keeps its value. *)
Lemma Fscanln_empty_line (rest old : string) :
  Go.Fscanln (line "" +:+ rest) old = (old, rest).
Proof. reflexivity. Qed.

(** At the end of input too. *)
Lemma Fscanln_eof (old : string) : Go.Fscanln "" old = (old, "").
Proof. reflexivity. Qed.

(** ** The negotiation of the protocol type *)

Lemma word_not_empty (x : string) : word x = true -> x <> "".
Proof.
  unfold word. intros H. apply andb_prop in H as [H _].
  apply andb_prop in H as [H _].
  apply negb_true_iff in H. now apply String.eqb_neq.
Qed.

(** One round of the loop on an invalid entry. *)
Lemma Loop_invalid_entry (E : Env) (fuel attempt : nat) (ses : Session)
    (st : State) (x rest : string) :
  Type_ ses = "" ->
  invalid E x ->
  r st = line x +:+ rest ->
  Loop E (S fuel) attempt ses st =
    let st' :=
      mkState rest (w st ++ [typePrompt; unsupported E])%list (trace st) in
    if (AttemptsLimit <=? S attempt)%nat then
      (Returned (Some ErrToManyFails), ses, st')
    else Loop E fuel (S attempt) ses st'.
Proof.
  intros Hty (Hw & Ht & Hr & Hweb) Hin.
  pose proof (word_not_empty x Hw) as Hne.
  apply String.eqb_neq in Hne, Ht, Hr, Hweb.
  destruct ses as [address password type log]. cbn in Hty. subst type.
  cbn [Loop]. unfold bind, ret, print, Fscanln. cbn.
  rewrite Hin, (Fscanln_word x rest "" Hw). cbn.
  rewrite Ht, Hne, Hr, Hweb. cbn.
  unfold setType, typePrompt, unsupported. cbn.
  rewrite <- app_assoc. cbn.
  destruct attempt as [|[|n]]; reflexivity.
Qed.

(** ** What a computation adds to the trace *)

Section Appends.

Variable P : Event -> Prop.

Lemma appends_same (st st' : State) : trace st' = trace st -> appends P st st'.
Proof. intros H. exists []. rewrite H, app_nil_r. auto. Qed.

Lemma appends_trans (st1 st2 st3 : State) :
  appends P st1 st2 -> appends P st2 st3 -> appends P st1 st3.
Proof.
  intros (evs & H1 & HP) (evs' & H2 & HP'). exists (evs ++ evs')%list.
  rewrite H2, H1, app_assoc. split; [reflexivity|].
  apply Forall_app. auto.
Qed.

Lemma preserves_ret {A : Type} (x : A) : preserves P (ret x).
Proof. intros st. now apply appends_same. Qed.

Lemma preserves_bind {A B : Type} (c : M A) (k : A -> M B) :
  preserves P c -> (forall x, preserves P (k x)) -> preserves P (bind c k).
Proof.
  intros Hc Hk st. unfold bind. specialize (Hc st).
  destruct (c st) as [x st']. eapply appends_trans; [exact Hc|]. apply Hk.
Qed.

Lemma preserves_print (x : Print) : preserves P (print x).
Proof. intros st. now apply appends_same. Qed.

Lemma preserves_history : preserves P history.
Proof. intros st. now apply appends_same. Qed.

Lemma preserves_Fscanln (old : string) : preserves P (Fscanln old).
Proof.
  intros st. unfold Fscanln. destruct (Go.Fscanln (r st) old).
  now apply appends_same.
Qed.

Lemma preserves_NewScanner : preserves P NewScanner.
Proof.
  intros st. unfold NewScanner. destruct (Go.ScanLines 0 "" (r st)).
  now apply appends_same.
Qed.

Lemma preserves_record (ev : Event) : P ev -> preserves P (record ev).
Proof. intros Hev st. exists [ev]. split; [reflexivity|]. auto. Qed.

Lemma preserves_telnet_Interactive (E : Env) (address password : string) :
  P (CallInteractive telnet address password) ->
  preserves P (call_telnet_Interactive E address password).
Proof.
  intros Hev st. unfold call_telnet_Interactive.
  destruct (telnet_Interactive E (trace st) (r st) address password)
    as [[err unread] out].
  eexists [_]. split; [reflexivity|]. auto.
Qed.

End Appends.

Create HintDb trace discriminated.
#[export] Hint Resolve preserves_ret preserves_print preserves_history
  preserves_Fscanln preserves_NewScanner : trace.

Ltac preserves_step :=
  match goal with
  | |- preserves _ (bind _ _) => apply preserves_bind; [|intros ?]
  | |- preserves _ (if ?b then _ else _) => destruct b eqn:?
  | |- preserves _ (match ?x with Some _ => _ | None => _ end) =>
      destruct x eqn:?
  | |- preserves _ (let '(_, _) := ?x in _) => destruct x eqn:?
  | |- preserves _ (match ?x with ScanEnd => _ | _ => _ end) => destruct x
  | |- preserves _ (record _) => apply preserves_record
  | |- preserves _ (call_telnet_Interactive _ _ _) =>
      apply preserves_telnet_Interactive
  | |- preserves _ _ => solve [auto with trace]
  end.

Ltac solve_not_quit :=
  let H := fresh "Hcall" in
  unfold not_quit; intros ? ? ? H;
  first [discriminate H | injection H; intros; contradiction].

Lemma Execute_not_quit (E : Env) (ses : Session) (command : string) :
  command <> CommandQuit -> preserves not_quit (Execute E ses command).
Proof.
  intros Hq. unfold Execute, call_Execute, call_logger_Write.
  repeat preserves_step; solve_not_quit.
Qed.

Lemma CheckCredentials_not_quit (E : Env) (ses : Session) :
  preserves not_quit (CheckCredentials E ses).
Proof.
  unfold CheckCredentials, call_rcon_CheckCredentials,
    call_websocket_CheckCredentials.
  repeat preserves_step; solve_not_quit.
Qed.

Lemma commandLoop_not_quit (E : Env) (ses : Session) (lines : list string) :
  preserves not_quit (commandLoop E ses lines).
Proof.
  induction lines as [|command lines IH]; cbn [commandLoop].
  - auto with trace.
  - destruct (command =? CommandQuit) eqn:Hq.
    + destruct (negb (command =? "")); [auto with trace|].
      apply preserves_bind; auto with trace.
    + apply String.eqb_neq in Hq.
      pose proof (Execute_not_quit E ses command Hq).
      repeat preserves_step; auto with trace.
Qed.

Lemma Loop_not_quit (E : Env) (fuel attempt : nat) (ses : Session) :
  preserves not_quit (Loop E fuel attempt ses).
Proof.
  revert attempt ses. induction fuel as [|fuel IH]; intros attempt ses;
    cbn [Loop]; [auto with trace|].
  pose proof (CheckCredentials_not_quit E) as Hcc.
  pose proof (commandLoop_not_quit E) as Hcl.
  repeat preserves_step; auto with trace. solve_not_quit.
Qed.

Lemma Interactive_not_quit (E : Env) (fuel : nat) (ses : Session) :
  preserves not_quit (Interactive E fuel ses).
Proof.
  unfold Interactive. pose proof (Loop_not_quit E fuel 0) as HL.
  repeat preserves_step; auto with trace.
Qed.

(** ** The command loop *)

Lemma checks_app (tr tr' : list Event) :
  checks (tr ++ tr') = checks tr + checks tr'.
Proof.
  induction tr as [|ev tr IH]; [reflexivity|].
  destruct ev; cbn; rewrite IH; reflexivity.
Qed.

Lemma own_protocol_tests (E : Env) (type : string) :
  distinct_protocols E ->
  own_protocol E type ->
  (type =? ProtocolTELNET E) = false
  /\ (type =? "") || (type =? ProtocolRCON E) || (type =? ProtocolWebRCON E)
     = true.
Proof.
  unfold distinct_protocols. intros Hd Hown.
  apply NoDup_cons in Hd as [Hd _]. split.
  - apply String.eqb_neq. intros ->. apply Hd.
    destruct Hown as [<- | [<- | <-]]; set_solver.
  - destruct Hown as [-> | [-> | ->]]; rewrite String.eqb_refl;
      rewrite ?orb_true_r; reflexivity.
Qed.

(** With the input at its end, a round of the loop checks the credentials,
    finds nothing to scan and goes round again: the loop does not return,
    however many rounds it is given. *)
Lemma Loop_end_of_input (E : Env) (fuel attempt : nat) (ses : Session)
    (st : State) :
  distinct_protocols E ->
  accepts_credentials E ->
  own_protocol E (Type_ ses) ->
  r st = "" ->
  exists st',
    Loop E fuel attempt ses st = (OutOfFuel, ses, st')
    /\ r st' = ""
    /\ checks (trace st') = checks (trace st) + fuel.
Proof.
  intros Hd Hacc Hown. revert st.
  destruct (own_protocol_tests E _ Hd Hown) as [Htel Hvalid].
  induction fuel as [|fuel IH]; intros st Hr.
  - exists st. cbn. auto.
  - cbn [Loop].
    set (read := if Type_ ses =? "" then _ else _).
    assert (exists out, read st = (ses, mkState "" out (trace st)))
      as [out Hread].
    { subst read. destruct (Type_ ses =? "") eqn:Hty.
      - apply String.eqb_eq in Hty.
        unfold bind, ret, print, Fscanln. cbn. rewrite Hr. cbn.
        destruct ses as [address password type log]. cbn in Hty.
        subst type. eexists. reflexivity.
      - exists (w st). unfold ret. destruct st. cbn in Hr. now subst. }
    unfold bind at 1. rewrite Hread. rewrite Htel, Hvalid.
    unfold bind, ret, print, CheckCredentials, call_rcon_CheckCredentials,
      call_websocket_CheckCredentials, history, record, NewScanner, failure.
    destruct (Type_ ses =? ProtocolWebRCON E); cbn;
      rewrite ?(proj1 (Hacc _ _ _)), ?(proj2 (Hacc _ _ _)); cbn;
      match goal with
      | |- context [Loop E fuel attempt ses ?s] =>
          destruct (IH s eq_refl) as (st' & Heq & Hr' & Hn)
      end;
      exists st'; rewrite Heq, Hn; cbn; rewrite checks_app; cbn;
      repeat split; auto; lia.
Qed.

Lemma Execute_r (E : Env) (ses : Session) (command : string) (st : State) :
  r (Execute E ses command st).2 = r st.
Proof.
  destruct (String.eqb_spec command "") as [-> | Hc]; [reflexivity|].
  rewrite (Execute_eq E ses command st Hc). cbv zeta.
  destruct (client_Execute E (dispatch E ses) (trace st) (Address ses)
              (Password ses) command) as [raw [msg|]]; reflexivity.
Qed.

Lemma Execute_never_fails (E : Env) (ses : Session) (command : string)
    (st : State) :
  never_fails E -> command <> "" -> (Execute E ses command st).1 = None.
Proof.
  intros [Hexec Hlog] Hc. rewrite (Execute_eq E ses command st Hc).
  cbv zeta.
  pose proof (Hexec (dispatch E ses) (trace st) (Address ses) (Password ses)
                command) as Herr.
  destruct (client_Execute E (dispatch E ses) (trace st) (Address ses)
              (Password ses) command) as [raw err].
  cbn in Herr. subst err. cbn. now rewrite Hlog.
Qed.

Lemma commandLoop_r (E : Env) (ses : Session) (lines : list string)
    (st : State) :
  r (commandLoop E ses lines st).2 = r st.
Proof.
  revert st. induction lines as [|command lines IH]; intros st;
    [reflexivity|].
  cbn [commandLoop].
  destruct (negb (command =? "")); [destruct (command =? CommandQuit)|];
    unfold bind, ret, print; try reflexivity.
  - pose proof (Execute_r E ses command st) as Hr.
    destruct (Execute E ses command st) as [[err|] st']; cbn in Hr |- *;
      [assumption|].
    rewrite IH. cbn. assumption.
  - rewrite IH. reflexivity.
Qed.

(** When no command fails, the loop over lines among which is the quit
    command is left by [break Loop]. *)
Lemma commandLoop_quit (E : Env) (ses : Session) (lines : list string)
    (st : State) :
  never_fails E ->
  CommandQuit ∈ lines ->
  (commandLoop E ses lines st).1 = BreakLoop.
Proof.
  intros Hnf. revert st.
  induction lines as [|command lines IH]; intros st Hin.
  - inversion Hin.
  - cbn [commandLoop].
    destruct (String.eqb_spec command CommandQuit) as [-> | Hq];
      [reflexivity|].
    assert (Hin' : CommandQuit ∈ lines).
    { apply elem_of_cons in Hin as [Heq | Hin]; [congruence|assumption]. }
    destruct (String.eqb_spec command "") as [-> | Hc]; cbn [negb].
    + unfold bind, print. now apply IH.
    + pose proof (Execute_never_fails E ses command st Hnf Hc) as Hok.
      unfold bind at 1.
      destruct (Execute E ses command st) as [err st']. cbn in Hok.
      subst err. unfold bind, print. now apply IH.
Qed.

(** Without the quit command among the lines, the loop ends when the
    scanner has no more of them. *)
Lemma commandLoop_scan_end (E : Env) (ses : Session) (lines : list string)
    (st : State) :
  never_fails E ->
  CommandQuit ∉ lines ->
  (commandLoop E ses lines st).1 = ScanEnd.
Proof.
  intros Hnf. revert st.
  induction lines as [|command lines IH]; intros st Hin; [reflexivity|].
  apply not_elem_of_cons in Hin as [Hq Hin].
  cbn [commandLoop].
  destruct (String.eqb_spec command CommandQuit) as [-> | _];
    [congruence|].
  destruct (String.eqb_spec command "") as [-> | Hc]; cbn [negb].
  - unfold bind, print. now apply IH.
  - pose proof (Execute_never_fails E ses command st Hnf Hc) as Hok.
    unfold bind at 1.
    destruct (Execute E ses command st) as [err st']. cbn in Hok.
    subst err. unfold bind, print. now apply IH.
Qed.

(** The quit command on its own: the loop is left at once, and the state is
    the one the line was read in. *)
Lemma commandLoop_quit_first (E : Env) (ses : Session) (lines : list string)
    (st : State) :
  commandLoop E ses (CommandQuit :: lines) st = (BreakLoop, st).
Proof. reflexivity. Qed.

(** A round of the loop that gets one of the two protocols the executor
    drives itself, or the empty type, with the credentials accepted: the
    scanner is made on what is left of the input and the command loop run
    on its lines. *)
Lemma Loop_commands (E : Env) (fuel attempt : nat) (ses : Session)
    (st : State) :
  distinct_protocols E ->
  accepts_credentials E ->
  own_protocol E (Type_ (asked ses st).1) ->
  let ses1 := (asked ses st).1 in
  let input := r (asked ses st).2 in
  exists st1,
    r st1 = (Go.ScanLines 0 "" input).2
    /\ checks (trace st1) = S (checks (trace st))
    /\ Loop E (S fuel) attempt ses st =
       let '(exit, st2) :=
         commandLoop E ses1 (Go.ScanLines 0 "" input).1 st1 in
       match exit with
       | ScanEnd => Loop E fuel attempt ses1 st2
       | BreakLoop => (Returned None, ses1, st2)
       | Return err => (Returned (Some err), ses1, st2)
       end.
Proof.
  intros Hd Hacc Hown. cbv zeta.
  destruct (own_protocol_tests E _ Hd Hown) as [Htel Hvalid].
  cbn [Loop].
  set (read := if Type_ ses =? "" then _ else _).
  assert (Hread : read st = asked ses st).
  { subst read. unfold asked. destruct (Type_ ses =? ""); [|reflexivity].
    unfold bind, ret, print, Fscanln. cbn.
    destruct (Go.Fscanln (r st) (Type_ ses)). reflexivity. }
  assert (Htr : trace (asked ses st).2 = trace st).
  { unfold asked. destruct (Type_ ses =? ""); [|reflexivity].
    destruct (Go.Fscanln (r st) (Type_ ses)). reflexivity. }
  unfold bind at 1. rewrite Hread.
  destruct (asked ses st) as [ses1 st0]. cbn [fst snd] in *.
  rewrite Htel, Hvalid.
  unfold bind, ret, print, CheckCredentials, call_rcon_CheckCredentials,
    call_websocket_CheckCredentials, history, record, NewScanner, failure.
  destruct (Type_ ses1 =? ProtocolWebRCON E); cbn;
    rewrite ?(proj1 (Hacc _ _ _)), ?(proj2 (Hacc _ _ _)); cbn;
    destruct (Go.ScanLines 0 "" (r st0)) as [lines unread]; cbn;
    match goal with
    | |- context [commandLoop E ses1 lines ?s] => exists s
    end;
    cbn; (split; [reflexivity|]);
    (split; [rewrite checks_app, Htr; cbn; lia|]);
    destruct (commandLoop E ses1 lines _) as [[| |err] st2]; reflexivity.
Qed.

Lemma Interactive_flags (E : Env) (fuel : nat) (ses : Session) (st : State) :
  Address ses <> "" -> Password ses <> "" ->
  Interactive E fuel ses st = Loop E fuel 0 ses st.
Proof.
  intros Ha Hp. apply String.eqb_neq in Ha, Hp.
  unfold Interactive. rewrite Ha. unfold bind at 1, ret at 1.
  rewrite Hp. reflexivity.
Qed.

Lemma Execute_command_calls (E : Env) (ses : Session) (command : string) :
  preserves command_call (Execute E ses command).
Proof.
  unfold Execute, call_Execute, call_logger_Write.
  repeat preserves_step; exact I.
Qed.

Lemma commandLoop_command_calls (E : Env) (ses : Session)
    (lines : list string) :
  preserves command_call (commandLoop E ses lines).
Proof.
  induction lines as [|command lines IH]; cbn [commandLoop].
  - auto with trace.
  - pose proof (Execute_command_calls E ses command).
    repeat preserves_step; auto with trace.
Qed.

Lemma commandLoop_checks (E : Env) (ses : Session) (lines : list string)
    (st : State) :
  checks (trace (commandLoop E ses lines st).2) = checks (trace st).
Proof.
  destruct (commandLoop_command_calls E ses lines st) as (evs & -> & Hevs).
  rewrite checks_app.
  assert (checks evs = 0) as ->; [|lia].
  induction Hevs as [|ev evs Hev _ IH]; [reflexivity|].
  destruct ev; cbn in *; now try contradiction.
Qed.

(** ** End of input *)

(** C2 fails on the code.  With the credentials accepted and no command
    failing, an input that runs out without the quit command does not make
    [Interactive] return: the scanner loop ends, the labelled loop around
    it goes round again, and every further round checks the credentials
    anew and finds nothing to scan.  Whatever number of rounds is allowed,
    there is no answer and one credential check for each round. *)
Theorem Interactive_spins_at_end_of_input (E : Env) (ses : Session)
    (st : State) :
  distinct_protocols E ->
  accepts_credentials E ->
  never_fails E ->
  Address ses <> "" ->
  Password ses <> "" ->
  own_protocol E (Type_ (asked ses st).1) ->
  CommandQuit ∉ (Go.ScanLines 0 "" (r (asked ses st).2)).1 ->
  (Go.ScanLines 0 "" (r (asked ses st).2)).2 = "" ->
  forall fuel,
    (Interactive E fuel ses st).1.1 = OutOfFuel
    /\ checks (trace (Interactive E fuel ses st).2)
       = checks (trace st) + fuel.
Proof.
  intros Hd Hacc Hnf Ha Hp Hown Hq Hend fuel.
  rewrite (Interactive_flags E fuel ses st Ha Hp).
  destruct fuel as [|fuel]; [cbn; split; [reflexivity|lia]|].
  destruct (Loop_commands E fuel 0 ses st Hd Hacc Hown)
    as (st1 & Hr1 & Hc1 & ->).
  pose proof (commandLoop_scan_end E (asked ses st).1 _ st1 Hnf Hq) as Hexit.
  pose proof (commandLoop_r E (asked ses st).1
                (Go.ScanLines 0 "" (r (asked ses st).2)).1 st1) as Hr2.
  pose proof (commandLoop_checks E (asked ses st).1
                (Go.ScanLines 0 "" (r (asked ses st).2)).1 st1) as Hc2.
  destruct (commandLoop E (asked ses st).1 _ st1) as [exit st2].
  cbn in Hexit, Hr2, Hc2. subst exit.
  destruct (Loop_end_of_input E fuel 0 (asked ses st).1 st2 Hd Hacc Hown)
    as (st' & -> & _ & Hn); [congruence|].
  cbn. split; [reflexivity|]. lia.
Qed.

Lemma server_accepts (answer : string) : accepts_credentials (server answer).
Proof. intros h address password. split; reflexivity. Qed.

Lemma server_never_fails (answer : string) : never_fails (server answer).
Proof. split; [intros []|]; reflexivity. Qed.

(** The executor is started with the address and the password, the user
    leaves the protocol type empty, sends one command and closes the
    input. *)
Lemma Interactive_spins_at_end_of_input_witness :
  let E := server "ok" in
  let st := start (line "" +:+ line "status") in
  (distinct_protocols E /\ accepts_credentials E /\ never_fails E)
  /\ (Address local <> "" /\ Password local <> "")
  /\ own_protocol E (Type_ (asked local st).1)
  /\ (CommandQuit ∉ (Go.ScanLines 0 "" (r (asked local st).2)).1)
  /\ (Go.ScanLines 0 "" (r (asked local st).2)).2 = ""
  /\ (forall fuel,
        (Interactive E fuel local st).1.1 = OutOfFuel
        /\ checks (trace (Interactive E fuel local st).2)
           = checks (trace st) + fuel).
Proof.
  cbv zeta.
  pose proof (server_distinct "ok") as Hd.
  pose proof (server_accepts "ok") as Hacc.
  pose proof (server_never_fails "ok") as Hnf.
  assert (Ha : Address local <> "") by discriminate.
  assert (Hp : Password local <> "") by discriminate.
  set (st := start (line "" +:+ line "status")).
  assert (Hown : own_protocol (server "ok") (Type_ (asked local st).1))
    by now left.
  assert (Hq : CommandQuit ∉ (Go.ScanLines 0 "" (r (asked local st).2)).1).
  { apply (bool_decide_unpack _). vm_compute. reflexivity. }
  assert (Hend : (Go.ScanLines 0 "" (r (asked local st).2)).2 = "")
    by reflexivity.
  refine (conj (conj Hd (conj Hacc Hnf))
            (conj (conj Ha Hp) (conj Hown (conj Hq (conj Hend _))))).
  exact (Interactive_spins_at_end_of_input (server "ok") local st
           Hd Hacc Hnf Ha Hp Hown Hq Hend).
Defined.

(** The run of the example: the credentials are checked once, the command
    before the quit command is executed and logged, the line after it is
    not read. *)
Example quit_run :
  let st := start (line "" +:+ line "status" +:+ line ":q" +:+ line "list") in
  (Interactive (server "ok") 1 local st).1.1 = Returned None
  /\ trace (Interactive (server "ok") 1 local st).2 =
       [CallCheckCredentials rcon "127.0.0.1:16260" "secret";
        CallExecute rcon "127.0.0.1:16260" "secret" "status";
        CallLoggerWrite "rcon.log" "127.0.0.1:16260" "status" "ok"].
Proof. split; reflexivity. Qed.

(** ** The rounds of the loop *)

Lemma first_call_bind {A B : Type} (P : Event -> Prop) (c : M A)
    (k : A -> M B) (st : State) (ev : Event) :
  trace (c st).2 = (trace st ++ [ev])%list ->
  (forall x, preserves P (k x)) ->
  first_call st (bind c k st).2 ev.
Proof.
  intros Hc Hk. unfold bind. destruct (c st) as [x st1]. cbn in Hc.
  destruct (Hk x st1) as (evs & Htr & _). exists evs.
  rewrite Htr, Hc, <- app_assoc. reflexivity.
Qed.

Lemma asked_line (ses : Session) (st : State) (v rest : string) :
  Type_ ses = "" ->
  v = "" \/ word v = true ->
  r st = line v +:+ rest ->
  asked ses st =
    (setType v ses, mkState rest (w st ++ [typePrompt]) (trace st)).
Proof.
  intros Hty Hv Hr. unfold asked. rewrite Hty, Hr. cbn [String.eqb].
  destruct Hv as [-> | Hv].
  - rewrite Fscanln_empty_line. reflexivity.
  - rewrite (Fscanln_word v rest "" Hv). reflexivity.
Qed.

Lemma Loop_asked (E : Env) (fuel attempt : nat) (ses : Session)
    (st : State) :
  Loop E (S fuel) attempt ses st =
    (let K := fun ses : Session =>
       if Type_ ses =? ProtocolTELNET E then
         err <- call_telnet_Interactive E (Address ses) (Password ses) ;;
         ret (Returned (failure err), ses)
       else if (Type_ ses =? "") || (Type_ ses =? ProtocolRCON E)
               || (Type_ ses =? ProtocolWebRCON E) then
         err <- CheckCredentials E ses ;;
         match err with
         | Some err => ret (Returned (Some err), ses)
         | None =>
             print (Fprintf waitingFormat [Address ses; CommandQuit]) ;;
             lines <- NewScanner ;;
             exit <- commandLoop E ses lines ;;
             match exit with
             | BreakLoop => ret (Returned None, ses)
             | Return err => ret (Returned (Some err), ses)
             | ScanEnd => Loop E fuel attempt ses
             end
         end
       else
         let attempt := S attempt in
         let ses := setType "" ses in
         print (unsupported E) ;;
         if (AttemptsLimit <=? attempt)%nat then
           ret (Returned (Some ErrToManyFails), ses)
         else Loop E fuel attempt ses
     in K (asked ses st).1 (asked ses st).2).
Proof.
  cbn [Loop]. unfold bind at 1.
  set (read := if Type_ ses =? "" then _ else _).
  assert (Hread : read st = asked ses st).
  { subst read. unfold asked. destruct (Type_ ses =? ""); [|reflexivity].
    unfold bind, ret, print, Fscanln. cbn.
    destruct (Go.Fscanln (r st) (Type_ ses)). reflexivity. }
  rewrite Hread. destruct (asked ses st) as [ses1 st0]. reflexivity.
Qed.

(** A round that gets the telnet name hands the rest of the session to
    [telnet.Interactive] and returns what it returns. *)
Lemma Loop_telnet (E : Env) (fuel attempt : nat) (ses : Session)
    (st : State) :
  Type_ (asked ses st).1 = ProtocolTELNET E ->
  let ses1 := (asked ses st).1 in
  let st0 := (asked ses st).2 in
  let call := CallInteractive telnet (Address ses1) (Password ses1) in
  (Loop E (S fuel) attempt ses st).1.1 =
    Returned (failure (telnet_Interactive E (trace st0) (r st0)
                         (Address ses1) (Password ses1)).1.1)
  /\ trace (Loop E (S fuel) attempt ses st).2 = (trace st0 ++ [call])%list.
Proof.
  intros Hty. rewrite Loop_asked. cbv beta zeta.
  rewrite Hty, String.eqb_refl.
  unfold bind, ret, call_telnet_Interactive.
  destruct (telnet_Interactive E _ _ _ _) as [[err unread] out].
  split; reflexivity.
Qed.

(** A round that gets the empty type or one of the other two names starts
    with the check of the credentials, by the websocket client for the
    webrcon name and by the rcon client otherwise. *)
Lemma Loop_checks_credentials (E : Env) (fuel attempt : nat) (ses : Session)
    (st : State) :
  distinct_protocols E ->
  own_protocol E (Type_ (asked ses st).1) ->
  let ses1 := (asked ses st).1 in
  let c :=
    if Type_ ses1 =? ProtocolWebRCON E then websocket else rcon in
  first_call (asked ses st).2 (Loop E (S fuel) attempt ses st).2
    (CallCheckCredentials c (Address ses1) (Password ses1)).
Proof.
  intros Hd Hown. cbv zeta.
  destruct (own_protocol_tests E _ Hd Hown) as [Htel Hvalid].
  rewrite Loop_asked. cbv beta zeta. rewrite Htel, Hvalid.
  apply (first_call_bind not_quit).
  - unfold CheckCredentials, call_rcon_CheckCredentials,
      call_websocket_CheckCredentials, bind, ret, history, record.
    destruct (Type_ (asked ses st).1 =? ProtocolWebRCON E); reflexivity.
  - intros err.
    pose proof (commandLoop_not_quit E) as Hcl.
    pose proof (Loop_not_quit E) as HL.
    repeat preserves_step; auto with trace.
Qed.

Lemma distinct_protocols_neq (E : Env) :
  distinct_protocols E ->
  ProtocolWebRCON E <> "" /\ ProtocolRCON E <> ProtocolWebRCON E.
Proof.
  unfold distinct_protocols. rewrite !NoDup_cons.
  intros (_ & H1 & H2 & _). split.
  - intros Heq. apply H1. rewrite <- Heq. set_solver.
  - intros Heq. apply H2. rewrite Heq. set_solver.
Qed.

Lemma server_words (answer : string) : protocol_words (server answer).
Proof. repeat split. Qed.

Lemma server_invalid (answer x : string) :
  word x = true ->
  x <> "telnet" -> x <> "rcon" -> x <> "web" ->
  invalid (server answer) x.
Proof. intros Hw Ht Hr Hweb. repeat split; assumption. Qed.

(** ** Sessions from the terminal *)

(** The address, the password, an empty line for the protocol type and the
    quit command: the credentials are checked with the rcon client and no
    command is sent. *)
Example session_quit_at_once :
  let input :=
    line "127.0.0.1:16260" +:+ line "secret" +:+ line "" +:+ line ":q" in
  let '(out, ses, st) :=
    Interactive (server "ok") 1 (mkSession "" "" "" "") (start input) in
  out = Returned None
  /\ ses = mkSession "127.0.0.1:16260" "secret" "" ""
  /\ trace st = [CallCheckCredentials rcon "127.0.0.1:16260" "secret"]
  /\ w st =
       [Fprint "Enter remote host and port [ip:port]: ";
        Fprint "Enter password: ";
        typePrompt;
        Fprintf waitingFormat ["127.0.0.1:16260"; ":q"]].
Proof. repeat split. Qed.

(** The telnet name hands the session over to the telnet client. *)
Example session_telnet :
  let '(out, ses, st) :=
    Interactive (server "ok") 1 local (start (line "telnet")) in
  out = Returned None
  /\ Type_ ses = "telnet"
  /\ trace st = [CallInteractive telnet "127.0.0.1:16260" "secret"].
Proof. repeat split. Qed.

(** One command from the command line, with the address and the password
    in the config file. *)
Example single_command :
  let c :=
    cli.mkContext "" "" "" "" "status" "" "rcon.yaml" in
  let '(out, st) :=
    Action (configured "default" production) 1 c (start "") in
  out = Returned None
  /\ w st = [Fprintln "ok"]
  /\ trace st =
       [CallNewConfig "rcon.yaml";
        CallExecute telnet "10.0.0.7:25575" "hunter2" "status";
        CallLoggerWrite "production.log" "10.0.0.7:25575" "status" "ok"].
Proof. repeat split. Qed.

(** ** More on [NewSession] and the single mode *)

(** [NewSession] in one equation, for all flags and collaborators. *)
Lemma NewSession_eq (E : Env) (c : cli.Context) (st : State) :
  NewSession E c st =
  let ses := mkSession (cli.a c) (cli.p c) (cli.t c) (cli.l c) in
  if negb (cli.a c =? "") && negb (cli.p c =? "") then (ses, None, st)
  else
    let st1 :=
      mkState (r st) (w st) (trace st ++ [CallNewConfig (cli.cfg c)]) in
    match config_NewConfig E (trace st) (cli.cfg c) with
    | inr msg => (ses, Some (ErrCollaborator msg), st1)
    | inl cfg =>
        let env :=
          env_of cfg
            (if cli.e c =? "" then DefaultConfigEnv E else cli.e c) in
        (mkSession
           (if cli.a c =? "" then Address env else cli.a c)
           (if cli.p c =? "" then Password env else cli.p c)
           (if cli.t c =? "" then Type_ env else cli.t c)
           (if cli.l c =? "" then Log env else cli.l c),
         None, st1)
    end.
Proof.
  cbv zeta.
  unfold NewSession, call_NewConfig, bind, ret, history, record.
  cbn [Address Password].
  destruct (negb (cli.a c =? "") && negb (cli.p c =? "")); [reflexivity|].
  cbn [trace].
  destruct (config_NewConfig E (trace st) (cli.cfg c)) as [cfg|msg];
    [|reflexivity].
  unfold setAddress, setPassword, setLog, setType.
  destruct (cli.a c =? ""); cbn [Address Password Type_ Log];
    destruct (cli.p c =? ""); cbn [Address Password Type_ Log];
    destruct (cli.l c =? ""); cbn [Address Password Type_ Log];
    destruct (cli.t c =? ""); reflexivity.
Qed.

(** X1. A flag that is given is never overridden: on every path of
    [NewSession] (config skipped, config loaded, config not loadable) a
    field whose flag is not empty has the value of the flag. *)
Theorem NewSession_keeps_flags (E : Env) (c : cli.Context) (st : State) :
  let ses := (NewSession E c st).1.1 in
  (cli.a c <> "" -> Address ses = cli.a c)
  /\ (cli.p c <> "" -> Password ses = cli.p c)
  /\ (cli.t c <> "" -> Type_ ses = cli.t c)
  /\ (cli.l c <> "" -> Log ses = cli.l c).
Proof.
  cbv zeta. rewrite NewSession_eq. cbv zeta.
  destruct (negb (cli.a c =? "") && negb (cli.p c =? ""));
    [cbn; auto|].
  destruct (config_NewConfig E (trace st) (cli.cfg c)) as [cfg|msg];
    [|cbn; auto].
  cbn. repeat split; intros H; apply String.eqb_neq in H; now rewrite H.
Qed.

(** X2. An environment the config does not hold resolves nothing: when the
    config loads but has no entry under the selected name, [NewSession]
    returns the session of the flags, without an error. *)
Theorem NewSession_unknown_environment (E : Env) (c : cli.Context)
    (st : State) (cfg : gmap string Session) :
  cli.a c = "" \/ cli.p c = "" ->
  config_NewConfig E (trace st) (cli.cfg c) = inl cfg ->
  cfg !! (if cli.e c =? "" then DefaultConfigEnv E else cli.e c) = None ->
  NewSession E c st =
    (mkSession (cli.a c) (cli.p c) (cli.t c) (cli.l c), None,
     mkState (r st) (w st) (trace st ++ [CallNewConfig (cli.cfg c)])).
Proof.
  intros Hflags Hload Hmiss. rewrite NewSession_eq. cbv zeta.
  assert (Hskip : negb (cli.a c =? "") && negb (cli.p c =? "") = false).
  { destruct Hflags as [H | H]; rewrite H; cbn; [reflexivity|].
    apply andb_false_r. }
  rewrite Hskip, Hload. unfold env_of. rewrite Hmiss. cbn.
  destruct (String.eqb_spec (cli.a c) "") as [-> | _],
    (String.eqb_spec (cli.p c) "") as [-> | _],
    (String.eqb_spec (cli.t c) "") as [-> | _],
    (String.eqb_spec (cli.l c) "") as [-> | _]; reflexivity.
Qed.

Lemma NewSession_unknown_environment_witness :
  let E := configured "production" production in
  let c := cli.mkContext "" "" "" "" "status" "staging" "rcon.yaml" in
  ((cli.a c = "" \/ cli.p c = "")
   /\ config_NewConfig E [] (cli.cfg c) = inl {[ "production" := production ]}
   /\ ({[ "production" := production ]} : gmap string Session)
        !! (if cli.e c =? "" then DefaultConfigEnv E else cli.e c) = None)
  /\ NewSession E c (start "") =
       (mkSession "" "" "" "", None,
        mkState "" [] [CallNewConfig "rcon.yaml"]).
Proof.
  cbv zeta.
  assert (Hmiss :
    ({[ "production" := production ]} : gmap string Session) !! "staging"
    = None) by (apply lookup_singleton_ne; discriminate).
  refine (conj (conj (or_introl eq_refl) (conj eq_refl Hmiss)) _).
  exact (NewSession_unknown_environment (configured "production" production)
           (cli.mkContext "" "" "" "" "status" "staging" "rcon.yaml")
           (start "") {[ "production" := production ]}
           (or_introl eq_refl) eq_refl Hmiss).
Defined.

(** What [NewSession] does to the state: at most the call of the config
    loader. *)
Lemma NewSession_state (E : Env) (c : cli.Context) (st : State) :
  let st1 := (NewSession E c st).2 in
  r st1 = r st /\ w st1 = w st
  /\ (trace st1 = trace st
      \/ trace st1 = (trace st ++ [CallNewConfig (cli.cfg c)])%list).
Proof.
  cbv zeta. rewrite NewSession_eq. cbv zeta.
  destruct (negb (cli.a c =? "") && negb (cli.p c =? "")); [cbn; auto|].
  destruct (config_NewConfig E (trace st) (cli.cfg c)); cbn; auto.
Qed.

Lemma Execute_single_calls (E : Env) (ses : Session) (command : string) :
  Address ses <> "" -> Password ses <> "" ->
  preserves (single_call command) (Execute E ses command).
Proof.
  intros Ha Hp. unfold Execute, call_Execute, call_logger_Write.
  repeat preserves_step; cbn; auto.
Qed.

(** The action in one equation. *)
Lemma Action_eq (E : Env) (fuel : nat) (c : cli.Context) (st : State) :
  Action E fuel c st =
  let '(ses, err, st1) := NewSession E c st in
  match err with
  | Some err => (Returned (Some err), st1)
  | None =>
      if cli.command c =? "" then
        let '(out, _, st2) := Interactive E fuel ses st1 in (out, st2)
      else if Address ses =? "" then (Returned (Some ErrEmptyAddress), st1)
      else if Password ses =? "" then (Returned (Some ErrEmptyPassword), st1)
      else
        let '(res, st2) := Execute E ses (cli.command c) st1 in
        (Returned res, st2)
  end.
Proof.
  unfold Action. unfold bind at 1.
  destruct (NewSession E c st) as [[ses [err|]] st1]; [reflexivity|].
  destruct (cli.command c =? "").
  - unfold bind, ret.
    destruct (Interactive E fuel ses st1) as [[out ses'] st2]. reflexivity.
  - destruct (Address ses =? ""); [reflexivity|].
    destruct (Password ses =? ""); reflexivity.
Qed.

(** X3. The single mode keeps to its command: with a command on the command
    line the executor does not read the input, and it calls nothing but the
    config loader, one client's [Execute] with that command, an address and
    a password that are not empty, and the logger; no credential check and
    no interactive session are started. *)
Theorem Action_single_mode (E : Env) (fuel : nat) (c : cli.Context)
    (st : State) :
  cli.command c <> "" ->
  let st' := (Action E fuel c st).2 in
  r st' = r st /\ appends (single_call (cli.command c)) st st'.
Proof.
  intros Hc. apply String.eqb_neq in Hc. cbv zeta.
  destruct (NewSession_state E c st) as (Hr & _ & Htr).
  rewrite Action_eq.
  destruct (NewSession E c st) as [[ses err] st1]. cbn [snd] in Hr, Htr.
  assert (H1 : appends (single_call (cli.command c)) st st1).
  { destruct Htr as [Htr | Htr].
    - now apply appends_same.
    - exists [CallNewConfig (cli.cfg c)]. split; [exact Htr|].
      repeat constructor. }
  destruct err as [err|]; [cbn; auto|].
  rewrite Hc.
  destruct (String.eqb_spec (Address ses) "") as [_ | Ha]; [cbn; auto|].
  destruct (String.eqb_spec (Password ses) "") as [_ | Hp]; [cbn; auto|].
  pose proof (Execute_r E ses (cli.command c) st1) as Hr2.
  pose proof (Execute_single_calls E ses (cli.command c) Ha Hp st1) as H2.
  destruct (Execute E ses (cli.command c) st1) as [res st2].
  cbn [snd] in *. split; [congruence|].
  eapply appends_trans; eassumption.
Qed.

Lemma Action_single_mode_witness :
  let E := configured "default" production in
  let c := cli.mkContext "" "" "" "" "status" "" "rcon.yaml" in
  let st' := (Action E 1 c (start (line "list"))).2 in
  cli.command c <> ""
  /\ r st' = line "list"
  /\ appends (single_call "status") (start (line "list")) st'.
Proof.
  cbv zeta.
  assert (Hc : cli.command
                 (cli.mkContext "" "" "" "" "status" "" "rcon.yaml") <> "")
    by discriminate.
  exact (conj Hc
           (Action_single_mode (configured "default" production) 1
              (cli.mkContext "" "" "" "" "status" "" "rcon.yaml")
              (start (line "list")) Hc)).
Defined.

(** X4. The single mode checks the session before it dispatches: when
    [NewSession] gives no error, an empty address ends the run with
    [ErrEmptyAddress], and an empty password beside an address with
    [ErrEmptyPassword]; in both cases the state is the one [NewSession]
    left, so that no client is called. *)
Theorem Action_requires_endpoint (E : Env) (fuel : nat) (c : cli.Context)
    (st : State) :
  cli.command c <> "" ->
  (NewSession E c st).1.2 = None ->
  let ses := (NewSession E c st).1.1 in
  let st1 := (NewSession E c st).2 in
  (Address ses = "" ->
   Action E fuel c st = (Returned (Some ErrEmptyAddress), st1))
  /\ (Address ses <> "" -> Password ses = "" ->
      Action E fuel c st = (Returned (Some ErrEmptyPassword), st1)).
Proof.
  intros Hc Herr. apply String.eqb_neq in Hc. cbv zeta.
  rewrite Action_eq.
  destruct (NewSession E c st) as [[ses err] st1]. cbn in Herr |- *.
  subst err. rewrite Hc. split.
  - intros ->. reflexivity.
  - intros Ha ->. apply String.eqb_neq in Ha. rewrite Ha. reflexivity.
Qed.

Lemma Action_requires_endpoint_witness :
  let E := configured "production" production in
  let c := cli.mkContext "" "" "" "" "status" "staging" "rcon.yaml" in
  (cli.command c <> "" /\ (NewSession E c (start "")).1.2 = None)
  /\ Action E 1 c (start "") =
       (Returned (Some ErrEmptyAddress),
        mkState "" [] [CallNewConfig "rcon.yaml"]).
Proof.
  cbv zeta.
  assert (Hc : cli.command
                 (cli.mkContext "" "" "" "" "status" "staging" "rcon.yaml")
               <> "") by discriminate.
  refine (conj (conj Hc eq_refl) _).
  exact (proj1 (Action_requires_endpoint
                  (configured "production" production) 1
                  (cli.mkContext "" "" "" "" "status" "staging" "rcon.yaml")
                  (start "") Hc eq_refl) eq_refl).
Defined.

(** X5. A config that cannot be loaded ends the run, in the interactive
    mode too: unless the address and the password are both given as flags,
    the action returns the load error right after the call of the config
    loader; nothing is printed, nothing is read and no client is called. *)
Theorem Action_config_error (E : Env) (fuel : nat) (c : cli.Context)
    (st : State) (msg : string) :
  cli.a c = "" \/ cli.p c = "" ->
  config_NewConfig E (trace st) (cli.cfg c) = inr msg ->
  Action E fuel c st =
    (Returned (Some (ErrCollaborator msg)),
     mkState (r st) (w st) (trace st ++ [CallNewConfig (cli.cfg c)])).
Proof.
  intros Hflags Hload. rewrite Action_eq, NewSession_eq. cbv zeta.
  assert (Hskip : negb (cli.a c =? "") && negb (cli.p c =? "") = false).
  { destruct Hflags as [H | H]; rewrite H; cbn; [reflexivity|].
    apply andb_false_r. }
  rewrite Hskip, Hload. reflexivity.
Qed.

Lemma Action_config_error_witness :
  let c := cli.mkContext "127.0.0.1:16260" "" "" "" "" "" "rcon.yaml" in
  let st := start (line "secret" +:+ line ":q") in
  ((cli.a c = "" \/ cli.p c = "")
   /\ config_NewConfig (server "ok") (trace st) (cli.cfg c)
      = inr "open rcon.yaml: no such file or directory")
  /\ Action (server "ok") 5 c st =
       (Returned
          (Some (ErrCollaborator "open rcon.yaml: no such file or directory")),
        mkState (line "secret" +:+ line ":q") []
          [CallNewConfig "rcon.yaml"]).
Proof.
  cbv zeta.
  refine (conj (conj (or_intror eq_refl) eq_refl) _).
  exact (Action_config_error (server "ok") 5
           (cli.mkContext "127.0.0.1:16260" "" "" "" "" "" "rcon.yaml")
           (start (line "secret" +:+ line ":q"))
           "open rcon.yaml: no such file or directory"
           (or_intror eq_refl) eq_refl).
Defined.

(** ** More on [Execute] and [CheckCredentials] *)

(** X6. A log that cannot be written costs the result nothing: when the
    client succeeds and the logger fails, [Execute] returns the logger's
    error wrapped as a write-log error, which no client error is equal to,
    after the result has been printed as for a successful call. *)
Theorem Execute_log_failure (E : Env) (ses : Session) (command : string)
    (st : State) (raw msg : string) :
  command <> "" ->
  let call :=
    CallExecute (dispatch E ses) (Address ses) (Password ses) command in
  client_Execute E (dispatch E ses) (trace st) (Address ses) (Password ses)
    command = (raw, None) ->
  logger_Write E (trace st ++ [call]) (Log ses) (Address ses) command
    (shown raw) = Some msg ->
  (Execute E ses command st).1 = Some (ErrWriteLog msg)
  /\ w (Execute E ses command st).2 =
       (if raw =? "" then w st
        else (w st ++ [Fprintln (Go.TrimSpace raw)])%list)
  /\ forall msg', ErrWriteLog msg <> ErrCollaborator msg'.
Proof.
  intros Hc call Hraw Hlog. rewrite (Execute_eq E ses command st Hc).
  cbv zeta. rewrite Hraw. fold call. unfold shown in Hlog. rewrite Hlog.
  cbn. repeat split; [|discriminate].
  destruct (raw =? ""); reflexivity.
Qed.

Lemma Execute_log_failure_witness :
  let E := unlogged okAnswer in
  let call := CallExecute rcon "127.0.0.1:16260" "secret" "status" in
  ("status" <> ""
   /\ client_Execute E (dispatch E local) [] (Address local) (Password local)
        "status" = (okAnswer, None)
   /\ logger_Write E [call] (Log local) (Address local) "status"
        (shown okAnswer) = Some "permission denied")
  /\ (Execute E local "status" (start "")).1
     = Some (ErrWriteLog "permission denied")
  /\ w (Execute E local "status" (start "")).2 = [Fprintln "OK"].
Proof.
  cbv zeta.
  assert (Hc : "status" <> "") by discriminate.
  destruct (Execute_log_failure (unlogged okAnswer) local "status" (start "")
              okAnswer "permission denied" Hc eq_refl eq_refl)
    as (Hres & Hw & _).
  exact (conj (conj Hc (conj eq_refl eq_refl)) (conj Hres Hw)).
Defined.

(** X7. The credentials are checked with the client that will run the
    commands: for the empty type, the rcon name and the webrcon name,
    [CheckCredentials] makes one call, to the client [Execute] dispatches
    to for the same session, and touches neither the reader nor the
    writer. *)
Theorem CheckCredentials_client (E : Env) (ses : Session) (st : State) :
  distinct_protocols E ->
  own_protocol E (Type_ ses) ->
  let st' := (CheckCredentials E ses st).2 in
  trace st' =
    (trace st ++
     [CallCheckCredentials (dispatch E ses) (Address ses) (Password ses)])
    %list
  /\ r st' = r st /\ w st' = w st.
Proof.
  intros Hd Hown. cbv zeta.
  destruct (own_protocol_tests E _ Hd Hown) as [Htel _].
  unfold dispatch. rewrite Htel.
  unfold CheckCredentials, call_rcon_CheckCredentials,
    call_websocket_CheckCredentials, bind, ret, history, record.
  destruct (Type_ ses =? ProtocolWebRCON E); cbn; auto.
Qed.

Lemma CheckCredentials_client_witness :
  let E := server "ok" in
  let ses := setType "web" local in
  (distinct_protocols E /\ own_protocol E (Type_ ses))
  /\ trace (CheckCredentials E ses (start "")).2 =
       [CallCheckCredentials websocket "127.0.0.1:16260" "secret"]
  /\ r (CheckCredentials E ses (start "")).2 = ""
  /\ w (CheckCredentials E ses (start "")).2 = [].
Proof.
  cbv zeta.
  pose proof (server_distinct "ok") as Hd.
  assert (Hown : own_protocol (server "ok") (Type_ (setType "web" local)))
    by (right; now right).
  exact (conj (conj Hd Hown)
           (CheckCredentials_client (server "ok") (setType "web" local)
              (start "") Hd Hown)).
Defined.

(** ** More on the command loop *)

(** The loop over two runs of lines: over the first, and from there over
    the second unless the first has left the loop. *)
Lemma commandLoop_app (E : Env) (ses : Session) (lines more : list string)
    (st : State) :
  commandLoop E ses (lines ++ more) st =
    match commandLoop E ses lines st with
    | (ScanEnd, st1) => commandLoop E ses more st1
    | other => other
    end.
Proof.
  revert st. induction lines as [|command lines IH]; intros st;
    [reflexivity|].
  cbn [app commandLoop].
  destruct (negb (command =? "")); [destruct (command =? CommandQuit)|];
    unfold bind, ret, print; try reflexivity.
  - destruct (Execute E ses command st) as [[err|] st']; [reflexivity|].
    apply IH.
  - apply IH.
Qed.

(** X8. Nothing is read past the quit command or past a failure: the loop
    over lines followed by more lines goes on into the latter only when the
    former have all been scanned, and lines that follow the quit command
    change nothing. *)
Theorem commandLoop_stops (E : Env) (ses : Session)
    (lines more : list string) (st : State) :
  ((commandLoop E ses lines st).1 = ScanEnd ->
   commandLoop E ses (lines ++ more) st =
     commandLoop E ses more (commandLoop E ses lines st).2)
  /\ ((commandLoop E ses lines st).1 <> ScanEnd ->
      commandLoop E ses (lines ++ more) st = commandLoop E ses lines st)
  /\ commandLoop E ses (lines ++ CommandQuit :: more) st =
       commandLoop E ses (lines ++ [CommandQuit]) st.
Proof.
  rewrite !commandLoop_app.
  destruct (commandLoop E ses lines st) as [[| |err] st1]; cbn;
    repeat split; intros; congruence.
Qed.

(** X9. One failed command ends the loop: when the lines before it are
    scanned without leaving the loop and [Execute] fails on it, the loop
    returns that error in the state [Execute] left; the lines after it are
    not dispatched. *)
Theorem commandLoop_first_failure (E : Env) (ses : Session)
    (before after : list string) (command : string) (st : State)
    (err : error) :
  (commandLoop E ses before st).1 = ScanEnd ->
  command <> "" ->
  command <> CommandQuit ->
  let st1 := (commandLoop E ses before st).2 in
  (Execute E ses command st1).1 = Some err ->
  commandLoop E ses (before ++ command :: after) st =
    (Return err, (Execute E ses command st1).2).
Proof.
  intros Hscan Hc Hq st1 Hfail. rewrite commandLoop_app. subst st1.
  destruct (commandLoop E ses before st) as [exit st1].
  cbn in Hscan, Hfail |- *. subst exit.
  cbn [commandLoop].
  apply String.eqb_neq in Hc, Hq. rewrite Hc, Hq. cbn [negb]. unfold bind.
  destruct (Execute E ses command st1) as [res st2]. cbn in Hfail.
  subst res. reflexivity.
Qed.

Lemma commandLoop_first_failure_witness :
  let E := fragile "stop" in
  let ses := setType "rcon" local in
  ((commandLoop E ses ["status"; ""] (start "")).1 = ScanEnd
   /\ "stop" <> "" /\ "stop" <> CommandQuit
   /\ (Execute E ses "stop"
         (commandLoop E ses ["status"; ""] (start "")).2).1
      = Some (ErrCollaborator "connection reset"))
  /\ (commandLoop E ses ["status"; ""; "stop"; "list"] (start "")).1
     = Return (ErrCollaborator "connection reset")
  /\ executed
       (trace (commandLoop E ses ["status"; ""; "stop"; "list"]
                 (start "")).2)
     = ["status"; "stop"].
Proof.
  cbv zeta.
  assert (Hc : "stop" <> "") by discriminate.
  assert (Hq : "stop" <> CommandQuit) by discriminate.
  pose proof (commandLoop_first_failure (fragile "stop")
                (setType "rcon" local) ["status"; ""] ["list"] "stop"
                (start "") (ErrCollaborator "connection reset")
                eq_refl Hc Hq eq_refl) as Heq.
  refine (conj (conj eq_refl (conj Hc (conj Hq eq_refl))) _).
  cbn [app] in Heq. rewrite Heq. split; reflexivity.
Defined.

Lemma executed_app (tr tr' : list Event) :
  executed (tr ++ tr') = (executed tr ++ executed tr')%list.
Proof.
  induction tr as [|ev tr IH]; [reflexivity|].
  destruct ev; cbn; rewrite IH; reflexivity.
Qed.

(** The command [Execute] hands to a client. *)
Lemma Execute_executed (E : Env) (ses : Session) (command : string)
    (st : State) :
  command <> "" ->
  executed (trace (Execute E ses command st).2)
  = (executed (trace st) ++ [command])%list.
Proof.
  intros Hc. rewrite (Execute_eq E ses command st Hc). cbv zeta.
  destruct (client_Execute E (dispatch E ses) (trace st) (Address ses)
              (Password ses) command) as [raw [msg|]]; cbn [snd trace];
    rewrite !executed_app; cbn; now rewrite ?app_nil_r.
Qed.

Lemma commandLoop_executed_prefix (E : Env) (ses : Session)
    (lines : list string) (st : State) :
  exists done,
    executed (trace (commandLoop E ses lines st).2)
    = (executed (trace st) ++ done)%list
    /\ done `prefix_of` commands (beforeQuit lines).
Proof.
  revert st. induction lines as [|command lines IH]; intros st.
  - exists []. cbn. now rewrite app_nil_r.
  - cbn [commandLoop beforeQuit commands].
    destruct (String.eqb_spec command "") as [-> | Hc]; cbn [negb].
    + cbn [String.eqb commands]. unfold bind, print.
      destruct (IH (mkState (r st) (w st ++ [Fprint "> "]) (trace st)))
        as (done & Heq & Hpre).
      exists done. split; assumption.
    + destruct (String.eqb_spec command CommandQuit) as [-> | Hq].
      { exists []. cbn. now rewrite app_nil_r. }
      cbn [commands]. apply String.eqb_neq in Hc as Hc'. rewrite Hc'.
      unfold bind at 1.
      pose proof (Execute_executed E ses command st Hc) as Hex.
      destruct (Execute E ses command st) as [[err|] st1];
        cbn [snd] in Hex.
      { exists [command]. split; [exact Hex|].
        apply prefix_cons, prefix_nil. }
      unfold bind, print.
      destruct (IH (mkState (r st1) (w st1 ++ [Fprint "> "]) (trace st1)))
        as (done & Heq & Hpre).
      exists (command :: done). cbn [trace] in Heq.
      rewrite Heq, Hex, <- app_assoc. split; [reflexivity|].
      now apply prefix_cons.
Qed.

Lemma commandLoop_executed_all (E : Env) (ses : Session)
    (lines : list string) (st : State) :
  never_fails E ->
  executed (trace (commandLoop E ses lines st).2)
  = (executed (trace st) ++ commands (beforeQuit lines))%list.
Proof.
  intros Hnf. revert st.
  induction lines as [|command lines IH]; intros st.
  - cbn. now rewrite app_nil_r.
  - cbn [commandLoop beforeQuit commands].
    destruct (String.eqb_spec command "") as [-> | Hc]; cbn [negb].
    + cbn [String.eqb commands]. unfold bind, print. now rewrite IH.
    + destruct (String.eqb_spec command CommandQuit) as [-> | Hq].
      { cbn. now rewrite app_nil_r. }
      cbn [commands]. apply String.eqb_neq in Hc as Hc'. rewrite Hc'.
      unfold bind at 1.
      pose proof (Execute_executed E ses command st Hc) as Hex.
      pose proof (Execute_never_fails E ses command st Hnf Hc) as Hok.
      destruct (Execute E ses command st) as [err st1].
      cbn in Hex, Hok. subst err. unfold bind, print.
      rewrite IH. cbn [trace]. rewrite Hex, <- app_assoc. reflexivity.
Qed.

(** X10. The loop dispatches the commands among the lines before the first
    quit command, in their order and each once: in every run the commands
    handed to the clients are a prefix of them, and all of them when no
    command fails.  Empty lines dispatch nothing. *)
Theorem commandLoop_executed (E : Env) (ses : Session) (lines : list string)
    (st : State) :
  (exists done,
      executed (trace (commandLoop E ses lines st).2)
      = (executed (trace st) ++ done)%list
      /\ done `prefix_of` commands (beforeQuit lines))
  /\ (never_fails E ->
      executed (trace (commandLoop E ses lines st).2)
      = (executed (trace st) ++ commands (beforeQuit lines))%list).
Proof.
  split.
  - apply commandLoop_executed_prefix.
  - apply commandLoop_executed_all.
Qed.

(** ** More on [Interactive] *)

Lemma appends_weaken (P Q : Event -> Prop) (st st' : State) :
  (forall ev, P ev -> Q ev) -> appends P st st' -> appends Q st st'.
Proof.
  intros HPQ (evs & Htr & Hevs). exists evs. split; [exact Htr|].
  eapply Forall_impl; eassumption.
Qed.

Lemma asked_endpoint (ses : Session) (st : State) :
  same_endpoint ses (asked ses st).1 /\ trace (asked ses st).2 = trace st.
Proof.
  unfold asked, same_endpoint. destruct (Type_ ses =? ""); [|auto].
  destruct (Go.Fscanln (r st) (Type_ ses)). cbn. auto.
Qed.

Lemma of_session_same (ses ses' : Session) (ev : Event) :
  same_endpoint ses ses' -> of_session ses ev -> of_session ses' ev.
Proof.
  intros (Ha & Hp & Hl). destruct ev; cbn; rewrite ?Ha, ?Hp, ?Hl; auto.
Qed.

Lemma Interactive_prompted (E : Env) (fuel : nat) (ses : Session)
    (st : State) :
  Interactive E fuel ses st =
    Loop E fuel 0 (prompted ses st).1 (prompted ses st).2.
Proof.
  unfold Interactive, prompted. unfold bind at 1.
  destruct (Address ses =? "").
  - unfold bind at 1 2, print, Fscanln, ret at 1. cbn [r w trace].
    destruct (Go.Fscanln (r st) (Address ses)) as [a rest].
    unfold bind at 1.
    destruct (Password (setAddress a ses) =? ""); [|reflexivity].
    unfold bind, print, Fscanln, ret. cbn [r w trace].
    destruct (Go.Fscanln rest (Password (setAddress a ses))). reflexivity.
  - unfold ret at 1. unfold bind at 1.
    destruct (Password ses =? ""); [|reflexivity].
    unfold bind, print, Fscanln, ret. cbn [r w trace].
    destruct (Go.Fscanln (r st) (Password ses)). reflexivity.
Qed.

Lemma same_endpoint_setType (v : string) (ses ses' : Session) :
  same_endpoint ses ses' -> same_endpoint ses (setType v ses').
Proof. intros H. exact H. Qed.

(** The loop writes the type of the session and nothing else. *)
Lemma Loop_endpoint (E : Env) (fuel attempt : nat) (ses : Session)
    (st : State) :
  same_endpoint ses (Loop E fuel attempt ses st).1.2.
Proof.
  revert attempt ses st. induction fuel as [|fuel IH];
    intros attempt ses st; [repeat split|].
  rewrite Loop_asked. cbv beta zeta.
  destruct (asked_endpoint ses st) as [Hsame _].
  destruct (asked ses st) as [ses1 st0]. cbn [fst snd] in *.
  assert (Hgo : forall a s, same_endpoint ses (Loop E fuel a ses1 s).1.2).
  { intros a s. destruct Hsame as (Ha & Hp & Hl).
    destruct (IH a ses1 s) as (Ha' & Hp' & Hl').
    repeat split; congruence. }
  destruct (Type_ ses1 =? ProtocolTELNET E).
  { unfold bind, ret.
    destruct (call_telnet_Interactive E _ _ st0). exact Hsame. }
  destruct ((Type_ ses1 =? "") || (Type_ ses1 =? ProtocolRCON E)
            || (Type_ ses1 =? ProtocolWebRCON E)).
  - unfold bind at 1.
    destruct (CheckCredentials E ses1 st0) as [[err|] st1]; [exact Hsame|].
    unfold bind, ret, print, NewScanner. cbn [r w trace].
    destruct (Go.ScanLines 0 "" (r st1)) as [lines unread].
    destruct (commandLoop E ses1 lines _) as [[| |err] st2];
      [apply Hgo|exact Hsame|exact Hsame].
  - unfold bind, ret, print.
    destruct (AttemptsLimit <=? S attempt)%nat; [exact Hsame|].
    destruct Hsame as (Ha & Hp & Hl).
    destruct (IH (S attempt) (setType "" ses1)
                (mkState (r st0) (w st0 ++ [unsupported E]) (trace st0)))
      as (Ha' & Hp' & Hl').
    repeat split; cbn in *; congruence.
Qed.

Lemma CheckCredentials_of_session (E : Env) (ses : Session) :
  preserves (of_session ses) (CheckCredentials E ses).
Proof.
  unfold CheckCredentials, call_rcon_CheckCredentials,
    call_websocket_CheckCredentials.
  repeat preserves_step; cbn; auto.
Qed.

Lemma Execute_of_session (E : Env) (ses : Session) (command : string) :
  preserves (of_session ses) (Execute E ses command).
Proof.
  unfold Execute, call_Execute, call_logger_Write.
  repeat preserves_step; cbn; auto.
Qed.

Lemma commandLoop_of_session (E : Env) (ses : Session)
    (lines : list string) :
  preserves (of_session ses) (commandLoop E ses lines).
Proof.
  induction lines as [|command lines IH]; cbn [commandLoop].
  - auto with trace.
  - pose proof (Execute_of_session E ses command).
    repeat preserves_step; auto with trace.
Qed.

Lemma Loop_of_session (E : Env) (fuel attempt : nat) (ses : Session) :
  preserves (of_session ses) (Loop E fuel attempt ses).
Proof.
  revert attempt ses. induction fuel as [|fuel IH]; intros attempt ses st;
    [now apply appends_same|].
  rewrite Loop_asked. cbv beta zeta.
  destruct (asked_endpoint ses st) as [Hsame Htr].
  destruct (asked ses st) as [ses1 st0]. cbn [fst snd] in *.
  apply (appends_trans _ st st0); [now apply appends_same|].
  apply (appends_weaken (of_session ses1)).
  { intros ev. apply of_session_same. destruct Hsame as (Ha & Hp & Hl).
    repeat split; congruence. }
  clear Htr Hsame. revert st0.
  match goal with
  | |- forall s, appends ?P s (?F s).2 => change (preserves P F)
  end.
  pose proof (CheckCredentials_of_session E ses1) as Hcc.
  pose proof (commandLoop_of_session E ses1) as Hcl.
  pose proof (IH attempt ses1) as IH1.
  pose proof (IH (S attempt) (setType "" ses1)) as IH2.
  repeat preserves_step; auto with trace.
  cbn. auto.
Qed.

Lemma prompted_trace (ses : Session) (st : State) :
  trace (prompted ses st).2 = trace st.
Proof.
  unfold prompted. destruct (Address ses =? "").
  - destruct (Go.Fscanln (r st) (Address ses)) as [a rest].
    destruct (Password (setAddress a ses) =? ""); [|reflexivity].
    cbn [r w trace].
    destruct (Go.Fscanln rest (Password (setAddress a ses))). reflexivity.
  - destruct (Password ses =? ""); [|reflexivity].
    destruct (Go.Fscanln (r st) (Password ses)). reflexivity.
Qed.

(** X11. One session, one endpoint: every call [Interactive] makes to a
    collaborator is made for the session it returns; the clients get its
    address and its password, the logger its log path and its address, and
    the config is not read. *)
Theorem Interactive_calls_of_session (E : Env) (fuel : nat) (ses : Session)
    (st : State) :
  appends (of_session (Interactive E fuel ses st).1.2) st
    (Interactive E fuel ses st).2.
Proof.
  rewrite Interactive_prompted.
  pose proof (prompted_trace ses st) as Htr.
  destruct (prompted ses st) as [ses2 st2]. cbn [fst snd] in *.
  apply (appends_trans _ st st2); [now apply appends_same|].
  apply (appends_weaken (of_session ses2)).
  - intros ev. apply of_session_same. apply Loop_endpoint.
  - apply Loop_of_session.
Qed.

(** X12. [Interactive] keeps what it was given: the session it returns has
    the log path of the session it got, and the address and the password
    of that session when they were not empty. *)
Theorem Interactive_keeps_session (E : Env) (fuel : nat) (ses : Session)
    (st : State) :
  let ses' := (Interactive E fuel ses st).1.2 in
  Log ses' = Log ses
  /\ (Address ses <> "" -> Address ses' = Address ses)
  /\ (Password ses <> "" -> Password ses' = Password ses).
Proof.
  cbv zeta. rewrite Interactive_prompted.
  destruct (Loop_endpoint E fuel 0 (prompted ses st).1 (prompted ses st).2)
    as (Ha & Hp & Hl).
  rewrite Ha, Hp, Hl. unfold prompted.
  destruct (String.eqb_spec (Address ses) "") as [Hea | Hna].
  - destruct (Go.Fscanln (r st) (Address ses)) as [a rest].
    destruct (String.eqb_spec (Password (setAddress a ses)) "")
      as [Hep | Hnp].
    + cbn [r w trace].
      destruct (Go.Fscanln rest (Password (setAddress a ses))). cbn in *.
      repeat split; intros; congruence.
    + cbn in *. repeat split; intros; congruence.
  - destruct (String.eqb_spec (Password ses) "") as [Hep | Hnp].
    + destruct (Go.Fscanln (r st) (Password ses)). cbn.
      repeat split; intros; congruence.
    + repeat split.
Qed.

Lemma Fscanln_line (v rest old : string) :
  v = "" \/ word v = true ->
  Go.Fscanln (line v +:+ rest) old = (if v =? "" then old else v, rest).
Proof.
  intros [-> | Hv]; [apply Fscanln_empty_line|].
  rewrite (Fscanln_word v rest old Hv).
  pose proof (word_not_empty v Hv) as Hne. apply String.eqb_neq in Hne.
  now rewrite Hne.
Qed.

(** The two prompts on two lines of input. *)
Lemma prompted_lines (ses : Session) (st : State) (a p rest : string) :
  Address ses = "" ->
  Password ses = "" ->
  a = "" \/ word a = true ->
  p = "" \/ word p = true ->
  r st = line a +:+ line p +:+ rest ->
  prompted ses st =
    (setPassword p (setAddress a ses),
     mkState rest (w st ++ [addressPrompt; passwordPrompt]) (trace st)).
Proof.
  intros Ha Hp Hwa Hwp Hr. unfold prompted.
  rewrite Ha, Hr, (Fscanln_line a _ "" Hwa). cbn [String.eqb].
  cbn [Password setAddress]. rewrite Hp. cbn [String.eqb r w trace].
  rewrite (Fscanln_line p rest "" Hwp), <- app_assoc. cbn [app].
  destruct (String.eqb_spec a "") as [-> | _],
    (String.eqb_spec p "") as [-> | _]; reflexivity.
Qed.

Lemma asked_set (ses : Session) (st : State) :
  Type_ ses <> "" -> asked ses st = (ses, st).
Proof.
  intros H. apply String.eqb_neq in H. unfold asked. now rewrite H.
Qed.

Lemma dispatch_own (E : Env) (ses : Session) :
  distinct_protocols E ->
  own_protocol E (Type_ ses) ->
  dispatch E ses
  = if Type_ ses =? ProtocolWebRCON E then websocket else rcon.
Proof.
  intros Hd Hown. destruct (own_protocol_tests E _ Hd Hown) as [Htel _].
  unfold dispatch. now rewrite Htel.
Qed.

Lemma own_not_empty (E : Env) (type : string) :
  distinct_protocols E ->
  type = ProtocolRCON E \/ type = ProtocolWebRCON E ->
  type <> "".
Proof.
  unfold distinct_protocols. rewrite !NoDup_cons.
  intros (_ & H & _) Hty Heq. apply H. rewrite <- Heq.
  destruct Hty as [-> | ->]; set_solver.
Qed.

(** X13. What is typed at the prompts is what the server is asked about.
    For a session without address and password, [Interactive] takes one
    line for each: a word in ASCII becomes the field, and an empty line
    leaves the field empty without a second prompt.  The first call is then the
    credential check with these two values, by the client that runs the
    commands of the session. *)
Theorem Interactive_prompts (E : Env) (fuel : nat) (ses : Session)
    (st : State) (a p rest : string) :
  distinct_protocols E ->
  Address ses = "" ->
  Password ses = "" ->
  Type_ ses = ProtocolRCON E \/ Type_ ses = ProtocolWebRCON E ->
  a = "" \/ word a = true ->
  p = "" \/ word p = true ->
  r st = line a +:+ line p +:+ rest ->
  let res := Interactive E (S fuel) ses st in
  first_call st res.2 (CallCheckCredentials (dispatch E ses) a p)
  /\ Address res.1.2 = a /\ Password res.1.2 = p.
Proof.
  intros Hd Ha Hp Hty Hwa Hwp Hr. cbv zeta.
  rewrite Interactive_prompted.
  rewrite (prompted_lines ses st a p rest Ha Hp Hwa Hwp Hr). cbn [fst snd].
  set (ses2 := setPassword p (setAddress a ses)).
  set (st2 := mkState rest _ (trace st)).
  assert (Hne : Type_ ses2 <> "") by (apply (own_not_empty E); assumption).
  assert (Hown : own_protocol E (Type_ (asked ses2 st2).1)).
  { rewrite (asked_set ses2 st2 Hne). right. exact Hty. }
  pose proof (Loop_checks_credentials E fuel 0 ses2 st2 Hd Hown) as Hfirst.
  cbv zeta in Hfirst. rewrite (asked_set ses2 st2 Hne) in Hfirst.
  cbn [fst snd] in Hfirst.
  destruct (Loop_endpoint E (S fuel) 0 ses2 st2) as (Hea & Hep & _).
  split; [|split; assumption].
  rewrite (dispatch_own E ses Hd (or_intror Hty)). exact Hfirst.
Qed.

Lemma Interactive_prompts_witness :
  let E := server "ok" in
  let ses := mkSession "" "" "web" "" in
  let st := start (line "" +:+ line "secret" +:+ line ":q") in
  (distinct_protocols E
   /\ (Address ses = "" /\ Password ses = "")
   /\ (Type_ ses = ProtocolRCON E \/ Type_ ses = ProtocolWebRCON E)
   /\ (("" : string) = "" \/ word "" = true)
   /\ ("secret" = "" \/ word "secret" = true)
   /\ r st = line "" +:+ line "secret" +:+ line ":q")
  /\ first_call st (Interactive E 1 ses st).2
       (CallCheckCredentials websocket "" "secret")
  /\ Address (Interactive E 1 ses st).1.2 = ""
  /\ Password (Interactive E 1 ses st).1.2 = "secret".
Proof.
  cbv zeta.
  pose proof (server_distinct "ok") as Hd.
  assert (Hty : Type_ (mkSession "" "" "web" "") = ProtocolRCON (server "ok")
                \/ Type_ (mkSession "" "" "web" "")
                   = ProtocolWebRCON (server "ok")) by now right.
  assert (Hwa : ("" : string) = "" \/ word "" = true) by now left.
  assert (Hwp : "secret" = "" \/ word "secret" = true) by now right.
  exact (conj (conj Hd (conj (conj eq_refl eq_refl)
                          (conj Hty (conj Hwa (conj Hwp eq_refl)))))
           (Interactive_prompts (server "ok") 0 (mkSession "" "" "web" "")
              (start (line "" +:+ line "secret" +:+ line ":q"))
              "" "secret" (line ":q") Hd eq_refl eq_refl Hty Hwa Hwp
              eq_refl)).
Defined.

(** What [CheckCredentials] does to the state: one call, whatever the
    type. *)
Lemma CheckCredentials_state (E : Env) (ses : Session) (st : State) :
  let st' := (CheckCredentials E ses st).2 in
  (exists c,
      trace st' =
        (trace st ++ [CallCheckCredentials c (Address ses) (Password ses)])
        %list)
  /\ r st' = r st /\ w st' = w st.
Proof.
  cbv zeta.
  unfold CheckCredentials, call_rcon_CheckCredentials,
    call_websocket_CheckCredentials, bind, ret, history, record.
  destruct (Type_ ses =? ProtocolWebRCON E); cbn; eauto.
Qed.

(** X14. Rejected credentials end the session at once: for the empty type
    and the two names the executor drives itself, when the credential
    check fails [Interactive] returns its error in the state the check
    left; the banner is not printed, the input is not scanned and no
    command is dispatched. *)
Theorem Interactive_rejected (E : Env) (fuel : nat) (ses : Session)
    (st : State) (err : error) :
  distinct_protocols E ->
  Address ses <> "" ->
  Password ses <> "" ->
  let ses1 := (asked ses st).1 in
  let st0 := (asked ses st).2 in
  own_protocol E (Type_ ses1) ->
  (CheckCredentials E ses1 st0).1 = Some err ->
  Interactive E (S fuel) ses st =
    (Returned (Some err), ses1, (CheckCredentials E ses1 st0).2)
  /\ r (CheckCredentials E ses1 st0).2 = r st0
  /\ w (CheckCredentials E ses1 st0).2 = w st0
  /\ executed (trace (Interactive E (S fuel) ses st).2)
     = executed (trace st).
Proof.
  intros Hd Ha Hp ses1 st0 Hown Herr.
  destruct (own_protocol_tests E _ Hd Hown) as [Htel Hvalid].
  destruct (CheckCredentials_state E ses1 st0) as (Htr & Hr & Hw).
  assert (Heq : Interactive E (S fuel) ses st =
                (Returned (Some err), ses1,
                 (CheckCredentials E ses1 st0).2)).
  { rewrite (Interactive_flags E (S fuel) ses st Ha Hp), Loop_asked.
    cbv beta zeta. fold ses1 st0. rewrite Htel, Hvalid. unfold bind.
    destruct (CheckCredentials E ses1 st0) as [res st1]. cbn in Herr.
    subst res. reflexivity. }
  repeat split; try assumption.
  rewrite Heq. cbn [snd]. destruct Htr as [c Htr]. rewrite Htr.
  rewrite executed_app. cbn. rewrite app_nil_r.
  subst st0. now rewrite (proj2 (asked_endpoint ses st)).
Qed.

Lemma Interactive_rejected_witness :
  let st := start (line "" +:+ line "status") in
  (distinct_protocols unreachable
   /\ (Address local <> "" /\ Password local <> "")
   /\ own_protocol unreachable (Type_ (asked local st).1)
   /\ (CheckCredentials unreachable (asked local st).1 (asked local st).2).1
      = Some (ErrCollaborator "connection refused"))
  /\ (Interactive unreachable 1 local st).1.1
     = Returned (Some (ErrCollaborator "connection refused"))
  /\ r (Interactive unreachable 1 local st).2 = line "status"
  /\ w (Interactive unreachable 1 local st).2 = [typePrompt].
Proof.
  cbv zeta. set (st := start (line "" +:+ line "status")).
  assert (Hd : distinct_protocols unreachable).
  { apply (bool_decide_unpack _). vm_compute. reflexivity. }
  assert (Ha : Address local <> "") by discriminate.
  assert (Hp : Password local <> "") by discriminate.
  assert (Hown : own_protocol unreachable (Type_ (asked local st).1))
    by now left.
  destruct (Interactive_rejected unreachable 0 local st
              (ErrCollaborator "connection refused") Hd Ha Hp Hown eq_refl)
    as (Heq & Hr & Hw & _).
  refine (conj (conj Hd (conj (conj Ha Hp) (conj Hown eq_refl))) _).
  rewrite Heq. cbn [fst snd]. auto.
Defined.



(** One round of the loop on a type that is set and is no protocol name. *)
Lemma Loop_unknown_type (E : Env) (fuel attempt : nat) (ses : Session)
    (st : State) :
  unknown_type E (Type_ ses) ->
  Loop E (S fuel) attempt ses st =
    let st' := mkState (r st) (w st ++ [unsupported E]) (trace st) in
    if (AttemptsLimit <=? S attempt)%nat then
      (Returned (Some ErrToManyFails), setType "" ses, st')
    else Loop E fuel (S attempt) (setType "" ses) st'.
Proof.
  intros (Hne & Ht & Hr & Hw).
  rewrite Loop_asked. cbv beta zeta. rewrite (asked_set ses st Hne).
  cbn [fst snd].
  apply String.eqb_neq in Hne, Ht, Hr, Hw. rewrite Ht, Hne, Hr, Hw.
  cbn [orb]. unfold bind, print, ret. cbn [r w trace].
  destruct (AttemptsLimit <=? S attempt)%nat; reflexivity.
Qed.

(** X16. A type from a flag or from the config that is no protocol name
    uses up an attempt: it is rejected without a prompt, and two invalid
    entries after it, words in ASCII that are no protocol name, end
    [Interactive] with [ErrToManyFails]; no collaborator is called and the
    type of the session is left empty. *)
Theorem negotiation_counts_given_type (E : Env) (fuel : nat) (ses : Session)
    (st : State) (x y rest : string) :
  Address ses <> "" ->
  Password ses <> "" ->
  unknown_type E (Type_ ses) ->
  invalid E x ->
  invalid E y ->
  r st = line x +:+ line y +:+ rest ->
  let res := Interactive E (3 + fuel) ses st in
  res.1 = (Returned (Some ErrToManyFails), setType "" ses)
  /\ trace res.2 = trace st
  /\ r res.2 = rest
  /\ w res.2 =
       (w st ++
        [unsupported E; typePrompt; unsupported E; typePrompt;
         unsupported E])%list.
Proof.
  intros Ha Hp Hty Hx Hy Hr. cbv zeta.
  rewrite (Interactive_flags E _ ses st Ha Hp). cbn [Nat.add].
  rewrite (Loop_unknown_type E _ 0 ses st Hty). cbv zeta.
  cbn [Nat.leb AttemptsLimit].
  erewrite (Loop_invalid_entry E _ 1 (setType "" ses) _ x);
    [|reflexivity|exact Hx|exact Hr]. cbv zeta.
  cbn [Nat.leb AttemptsLimit].
  erewrite (Loop_invalid_entry E _ 2 (setType "" ses) _ y);
    [|reflexivity|exact Hy|reflexivity]. cbv zeta.
  cbn. rewrite <- !app_assoc. repeat split.
Qed.

Lemma negotiation_counts_given_type_witness :
  let E := server "ok" in
  let ses := setType "ssh" local in
  let st := start (line "ftp" +:+ line "http" +:+ line "rcon") in
  ((Address ses <> "" /\ Password ses <> "")
   /\ unknown_type E (Type_ ses)
   /\ (invalid E "ftp" /\ invalid E "http")
   /\ r st = line "ftp" +:+ line "http" +:+ line "rcon")
  /\ (Interactive E 3 ses st).1 = (Returned (Some ErrToManyFails), local)
  /\ trace (Interactive E 3 ses st).2 = []
  /\ r (Interactive E 3 ses st).2 = line "rcon".
Proof.
  cbv zeta.
  assert (Ha : Address (setType "ssh" local) <> "") by discriminate.
  assert (Hp : Password (setType "ssh" local) <> "") by discriminate.
  assert (Hty : unknown_type (server "ok") (Type_ (setType "ssh" local)))
    by (repeat split; discriminate).
  assert (Hx : invalid (server "ok") "ftp")
    by (apply server_invalid; [reflexivity|discriminate..]).
  assert (Hy : invalid (server "ok") "http")
    by (apply server_invalid; [reflexivity|discriminate..]).
  destruct (negotiation_counts_given_type (server "ok") 0
              (setType "ssh" local)
              (start (line "ftp" +:+ line "http" +:+ line "rcon"))
              "ftp" "http" (line "rcon") Ha Hp Hty Hx Hy eq_refl)
    as (Hres & Htr & Hr & _).
  exact (conj (conj (conj Ha Hp) (conj Hty (conj (conj Hx Hy) eq_refl)))
           (conj Hres (conj Htr Hr))).
Defined.

Lemma CheckCredentials_accepted (E : Env) (ses : Session) (st : State) :
  accepts_credentials E -> (CheckCredentials E ses st).1 = None.
Proof.
  intros Hacc.
  unfold CheckCredentials, call_rcon_CheckCredentials,
    call_websocket_CheckCredentials, bind, ret, history, record.
  destruct (Type_ ses =? ProtocolWebRCON E); cbn;
    rewrite ?(proj1 (Hacc _ _ _)), ?(proj2 (Hacc _ _ _)); reflexivity.
Qed.



(** ** A round of the loop that reaches the command loop *)

Lemma string_app_assoc (a b c : string) : (a +:+ b) +:+ c = a +:+ (b +:+ c).
Proof.
  induction a as [|ch a IH]; [reflexivity|].
  rewrite !append_String. now rewrite IH.
Qed.

Lemma asked_readType (ses : Session) (st : State) :
  (asked ses st).1 = (readType ses (r st)).1
  /\ r (asked ses st).2 = (readType ses (r st)).2
  /\ trace (asked ses st).2 = trace st.
Proof.
  unfold asked, readType. destruct (Type_ ses =? ""); [|auto].
  destruct (Go.Fscanln (r st) (Type_ ses)). auto.
Qed.

(** A round that gets the empty type or one of the two names the executor
    drives itself: the credentials are checked; when they are rejected the
    error is returned, and when they are accepted the banner is printed
    and the command loop run over the lines of the scanner. *)
Lemma Loop_round (E : Env) (fuel attempt : nat) (ses : Session)
    (st : State) :
  distinct_protocols E ->
  own_protocol E (Type_ (asked ses st).1) ->
  let ses1 := (asked ses st).1 in
  let st0 := (asked ses st).2 in
  Loop E (S fuel) attempt ses st =
    match (CheckCredentials E ses1 st0).1 with
    | Some err => (Returned (Some err), ses1, (CheckCredentials E ses1 st0).2)
    | None =>
        let '(exit, st3) :=
          commandLoop E ses1 (scanned (r st0)) (loopEntry E ses1 st0) in
        match exit with
        | BreakLoop => (Returned None, ses1, st3)
        | Return err => (Returned (Some err), ses1, st3)
        | ScanEnd => Loop E fuel attempt ses1 st3
        end
    end.
Proof.
  intros Hd Hown. cbv zeta.
  destruct (own_protocol_tests E _ Hd Hown) as [Htel Hvalid].
  rewrite Loop_asked. cbv beta zeta. rewrite Htel, Hvalid.
  unfold loopEntry, scanned, banner.
  destruct (CheckCredentials_state E (asked ses st).1 (asked ses st).2)
    as (_ & Hr & _).
  unfold bind at 1.
  destruct (CheckCredentials E (asked ses st).1 (asked ses st).2)
    as [[err|] st1]; cbn [fst snd] in *; [reflexivity|].
  unfold bind, ret, print, NewScanner. cbn [r w trace]. rewrite Hr.
  destruct (Go.ScanLines 0 "" (r (asked ses st).2)) as [lines unread].
  cbn [fst snd].
  destruct (commandLoop E (asked ses st).1 lines _) as [[| |err] st3];
    reflexivity.
Qed.

(** The errors of [Execute] and of the command loop are not the error of
    the limit of attempts. *)
Lemma Execute_error (E : Env) (ses : Session) (command : string) (st : State)
    (err : error) :
  (Execute E ses command st).1 = Some err -> err <> ErrToManyFails.
Proof.
  destruct (String.eqb_spec command "") as [-> | Hc].
  - cbn. intros [= <-]. discriminate.
  - rewrite (Execute_eq E ses command st Hc). cbv zeta.
    destruct (client_Execute E (dispatch E ses) (trace st) (Address ses)
                (Password ses) command) as [raw [msg|]]; cbn.
    + intros [= <-]. discriminate.
    + destruct (logger_Write E _ _ _ _ _); cbn; intros [= <-]. discriminate.
Qed.

Lemma commandLoop_error (E : Env) (ses : Session) (lines : list string)
    (st : State) (err : error) :
  (commandLoop E ses lines st).1 = Return err -> err <> ErrToManyFails.
Proof.
  revert st. induction lines as [|command lines IH]; intros st;
    [discriminate|].
  cbn [commandLoop].
  destruct (negb (command =? "")); [destruct (command =? CommandQuit)|];
    unfold bind, ret, print; try discriminate.
  - pose proof (Execute_error E ses command st) as Herr.
    destruct (Execute E ses command st) as [[e|] st']; cbn in *.
    + intros [= <-]. now apply Herr.
    + apply IH.
  - apply IH.
Qed.

Lemma CheckCredentials_error (E : Env) (ses : Session) (st : State)
    (err : error) :
  (CheckCredentials E ses st).1 = Some err -> err <> ErrToManyFails.
Proof.
  unfold CheckCredentials, call_rcon_CheckCredentials,
    call_websocket_CheckCredentials, bind, ret, history, record, failure.
  destruct (Type_ ses =? ProtocolWebRCON E); cbn;
    [destruct (websocket_CheckCredentials E _ _ _)
    |destruct (rcon_CheckCredentials E _ _ _)]; cbn;
    intros [= <-]; discriminate.
Qed.

(** Invalid entries, fewer than the limit allows: each takes one round and
    one attempt, and the loop goes on with what follows them. *)
Lemma Loop_invalid_entries (E : Env) (entries : list string) :
  forall (attempt : nat) (ses : Session) (st : State) (rest : string),
    entries = [] \/ Type_ ses = "" ->
    Forall (invalid E) entries ->
    attempt + length entries < AttemptsLimit ->
    r st = feed entries +:+ rest ->
    exists out,
      forall fuel,
        Loop E (length entries + fuel) attempt ses st =
          Loop E fuel (attempt + length entries) ses
            (mkState rest (w st ++ out) (trace st)).
Proof.
  induction entries as [|x entries IH]; intros attempt ses st rest Hty Hall
    Hlt Hr.
  - exists []. intros fuel. cbn [length Nat.add]. rewrite Nat.add_0_r.
    rewrite app_nil_r. destruct st as [inp out tr]. cbn in Hr. now subst.
  - destruct Hty as [Hnil | Hty]; [discriminate|].
    apply Forall_cons in Hall as [Hx Hall]. cbn [length] in Hlt.
    cbn [feed] in Hr. rewrite string_app_assoc in Hr.
    destruct (IH (S attempt) ses
                (mkState (feed entries +:+ rest)
                   (w st ++ [typePrompt; unsupported E]) (trace st)) rest
                (or_intror Hty) Hall ltac:(lia) eq_refl) as [out Hout].
    exists ([typePrompt; unsupported E] ++ out)%list.
    intros fuel. cbn [length Nat.add].
    rewrite (Loop_invalid_entry E _ attempt ses st x _ Hty Hx Hr).
    cbv zeta.
    assert ((AttemptsLimit <=? S attempt)%nat = false) as ->
      by (apply Nat.leb_gt; lia).
    rewrite Hout. cbn [r w trace]. rewrite <- app_assoc.
    now rewrite Nat.add_succ_r.
Qed.

(** ** The limit of attempts *)

(** C3. Three invalid entries for the protocol type end [Interactive] with
    [ErrToManyFails], before any collaborator is called.  After two invalid
    entries a valid one is accepted, and the session goes on as the type
    asks instead of failing.  The telnet name hands the session to
    [telnet.Interactive], whose answer [Interactive] returns.  The empty
    line, the rcon name and the webrcon name lead to the credential check,
    by the rcon client for the first two and by the websocket client for
    the third: when the credentials are rejected [Interactive] returns the
    error of the check; when they are accepted the banner is printed and
    the command loop is run over the lines that follow; [Interactive]
    returns nil when the loop is left by the quit command and the error of
    the command when one fails, neither of which is [ErrToManyFails], and
    the loop goes round again, with its two attempts used, when the lines
    run out.  The entries are words in ASCII, one on a line. *)
Theorem negotiation_limit (E : Env) (ses : Session) (x y : string) :
  distinct_protocols E ->
  protocol_words E ->
  Address ses <> "" ->
  Password ses <> "" ->
  Type_ ses = "" ->
  invalid E x ->
  invalid E y ->
  (forall st z rest fuel,
      invalid E z ->
      r st = line x +:+ line y +:+ line z +:+ rest ->
      (Interactive E (3 + fuel) ses st).1.1 = Returned (Some ErrToManyFails)
      /\ trace (Interactive E (3 + fuel) ses st).2 = trace st
      /\ r (Interactive E (3 + fuel) ses st).2 = rest)
  /\ (forall st v rest fuel,
        r st = line x +:+ line y +:+ line v +:+ rest ->
        let res := Interactive E (3 + fuel) ses st in
        let ses1 := setType v ses in
        let st0 :=
          mkState rest
            (w st ++ [typePrompt; unsupported E; typePrompt; unsupported E;
                      typePrompt])
            (trace st) in
        let check c := CallCheckCredentials c (Address ses) (Password ses) in
        (v = "" \/ v = ProtocolRCON E -> first_call st res.2 (check rcon))
        /\ (v = ProtocolWebRCON E -> first_call st res.2 (check websocket))
        /\ (v = ProtocolTELNET E ->
            trace res.2 =
              (trace st ++
               [CallInteractive telnet (Address ses) (Password ses)])%list
            /\ res.1 =
                 (Returned
                    (failure (telnet_Interactive E (trace st) rest
                                (Address ses) (Password ses)).1.1),
                  ses1))
        /\ (own_protocol E v ->
            (forall err,
                (CheckCredentials E ses1 st0).1 = Some err ->
                res = (Returned (Some err), ses1,
                       (CheckCredentials E ses1 st0).2)
                /\ err <> ErrToManyFails)
            /\ ((CheckCredentials E ses1 st0).1 = None ->
                let st2 := loopEntry E ses1 st0 in
                let run := commandLoop E ses1 (scanned rest) st2 in
                w st2 = (w st0 ++ [banner ses1])%list
                /\ (run.1 = BreakLoop ->
                    res.1 = (Returned None, ses1)
                    /\ trace res.2 = trace run.2 /\ w res.2 = w run.2)
                /\ (forall err,
                      run.1 = Return err ->
                      res.1 = (Returned (Some err), ses1)
                      /\ err <> ErrToManyFails
                      /\ trace res.2 = trace run.2 /\ w res.2 = w run.2)
                /\ (run.1 = ScanEnd -> res = Loop E fuel 2 ses1 run.2))
            /\ (accepts_credentials E ->
                never_fails E ->
                CommandQuit ∈ scanned rest ->
                res.1 = (Returned None, ses1)))).
Proof.
  intros Hd (Hwr & Hww & Hwt) Ha Hp Hty Hx Hy.
  destruct (distinct_protocols_neq E Hd) as [Hweb Hrw].
  split.
  - intros st z rest fuel Hz Hr.
    rewrite (Interactive_flags E _ ses st Ha Hp). cbn [Nat.add].
    rewrite (Loop_invalid_entry E _ 0 ses st x _ Hty Hx Hr). cbv zeta.
    cbn [Nat.leb AttemptsLimit].
    erewrite (Loop_invalid_entry E _ 1 ses _ y);
      [|exact Hty|exact Hy|reflexivity]. cbv zeta.
    cbn [Nat.leb AttemptsLimit].
    erewrite (Loop_invalid_entry E _ 2 ses _ z);
      [|exact Hty|exact Hz|reflexivity]. cbv zeta.
    cbn. auto.
  - intros st v rest fuel Hr. cbv zeta.
    rewrite (Interactive_flags E _ ses st Ha Hp). cbn [Nat.add].
    rewrite (Loop_invalid_entry E _ 0 ses st x _ Hty Hx Hr). cbv zeta.
    cbn [Nat.leb AttemptsLimit].
    erewrite (Loop_invalid_entry E _ 1 ses _ y);
      [|exact Hty|exact Hy|reflexivity]. cbv zeta.
    cbn [Nat.leb AttemptsLimit].
    match goal with
    | |- context [Loop E (S fuel) 2 ses ?s] => set (st2 := s)
    end.
    set (st0 := mkState rest _ (trace st)).
    assert (Hasked : v = "" \/ word v = true ->
              asked ses st2 = (setType v ses, st0)).
    { intros Hv. rewrite (asked_line ses st2 v rest Hty Hv eq_refl).
      subst st0 st2. cbn [r w trace]. now rewrite <- !app_assoc. }
    assert (Hvalid : own_protocol E v -> v = "" \/ word v = true).
    { intros [-> | [-> | ->]]; auto. }
    split; [|split; [|split]].
    + intros Hv.
      assert (Hown : own_protocol E v).
      { destruct Hv as [-> | ->]; [now left | right; now left]. }
      specialize (Hasked (Hvalid Hown)).
      assert (Hown' : own_protocol E (Type_ (asked ses st2).1))
        by now rewrite Hasked.
      pose proof (Loop_checks_credentials E fuel 2 ses st2 Hd Hown') as Hc.
      cbv zeta in Hc. rewrite Hasked in Hc. cbn [fst snd] in Hc.
      assert (Hnw : (Type_ (setType v ses) =? ProtocolWebRCON E) = false).
      { apply String.eqb_neq. cbn. destruct Hv as [-> | ->]; congruence. }
      rewrite Hnw in Hc. exact Hc.
    + intros Hv.
      assert (Hown : own_protocol E v) by (right; now right).
      specialize (Hasked (Hvalid Hown)).
      assert (Hown' : own_protocol E (Type_ (asked ses st2).1))
        by now rewrite Hasked.
      pose proof (Loop_checks_credentials E fuel 2 ses st2 Hd Hown') as Hc.
      cbv zeta in Hc. rewrite Hasked in Hc. cbn [fst snd] in Hc.
      assert (Hw : (Type_ (setType v ses) =? ProtocolWebRCON E) = true).
      { apply String.eqb_eq. exact Hv. }
      rewrite Hw in Hc. exact Hc.
    + intros Hv.
      assert (Hv' : v = "" \/ word v = true) by (right; now rewrite Hv).
      specialize (Hasked Hv').
      assert (Htel : Type_ (asked ses st2).1 = ProtocolTELNET E).
      { rewrite Hasked. exact Hv. }
      destruct (Loop_telnet E fuel 2 ses st2 Htel) as [Hout Htr].
      rewrite Hasked in Hout, Htr. cbn [fst snd] in Hout, Htr.
      split; [exact Htr|].
      rewrite Loop_asked in *. cbv beta zeta in *. rewrite Hasked in *.
      cbn [fst snd] in *. change (Type_ (setType v ses)) with v in *.
      rewrite Hv, String.eqb_refl in *.
      unfold bind, ret, call_telnet_Interactive in *.
      cbn [r w trace] in *.
      destruct (telnet_Interactive E _ _ _ _) as [[err unread] out].
      reflexivity.
    + intros Hown.
      specialize (Hasked (Hvalid Hown)).
      assert (Hown' : own_protocol E (Type_ (asked ses st2).1))
        by now rewrite Hasked.
      pose proof (Loop_round E fuel 2 ses st2 Hd Hown') as Hround.
      cbv zeta in Hround. rewrite Hasked in Hround. cbn [fst snd] in Hround.
      change (r st0) with rest in Hround.
      split; [|split].
      * intros err Herr. rewrite Herr in Hround.
        split; [exact Hround|].
        exact (CheckCredentials_error E _ _ err Herr).
      * intros Hok. rewrite Hok in Hround.
        destruct (CheckCredentials_state E (setType v ses) st0)
          as (_ & _ & Hw0).
        split; [unfold loopEntry; cbn [w]; now rewrite Hw0|].
        pose proof (commandLoop_error E (setType v ses) (scanned rest)
                      (loopEntry E (setType v ses) st0)) as Herr.
        destruct (commandLoop E (setType v ses) (scanned rest)
                    (loopEntry E (setType v ses) st0)) as [exit st3].
        cbn [fst snd] in *.
        split; [|split].
        -- intros ->. rewrite Hround. auto.
        -- intros err ->. rewrite Hround. cbn [fst snd]. auto.
        -- intros ->. exact Hround.
      * intros Hacc Hnf Hq.
        rewrite (CheckCredentials_accepted E _ st0 Hacc) in Hround.
        pose proof (commandLoop_quit E (setType v ses) (scanned rest)
                      (loopEntry E (setType v ses) st0) Hnf Hq) as Hexit.
        destruct (commandLoop E (setType v ses) (scanned rest)
                    (loopEntry E (setType v ses) st0)) as [exit st3].
        cbn [fst] in Hexit. subst exit. rewrite Hround. reflexivity.
Qed.

(** Three unknown names end the negotiation.  With the rcon name in the
    third place the credentials are checked and the session runs: the
    command is sent and the quit command ends it without an error. *)
Lemma negotiation_limit_witness :
  let E := server "ok" in
  let three := start (line "ssh" +:+ line "ftp" +:+ line "http") in
  let two :=
    start (line "ssh" +:+ line "ftp" +:+ line "rcon" +:+ line "status"
           +:+ line ":q") in
  (distinct_protocols E /\ protocol_words E)
  /\ (Address local <> "" /\ Password local <> "" /\ Type_ local = "")
  /\ (invalid E "ssh" /\ invalid E "ftp" /\ invalid E "http")
  /\ ((Interactive E 3 local three).1.1 = Returned (Some ErrToManyFails)
      /\ trace (Interactive E 3 local three).2 = []
      /\ r (Interactive E 3 local three).2 = "")
  /\ first_call two (Interactive E 3 local two).2
       (CallCheckCredentials rcon "127.0.0.1:16260" "secret")
  /\ (Interactive E 3 local two).1 = (Returned None, setType "rcon" local).
Proof.
  cbv zeta.
  pose proof (server_distinct "ok") as Hd.
  pose proof (server_words "ok") as Hw.
  pose proof (server_accepts "ok") as Hacc.
  pose proof (server_never_fails "ok") as Hnf.
  assert (Ha : Address local <> "") by discriminate.
  assert (Hp : Password local <> "") by discriminate.
  assert (Hty : Type_ local = "") by reflexivity.
  assert (Hx : invalid (server "ok") "ssh")
    by (apply server_invalid; [reflexivity|discriminate..]).
  assert (Hy : invalid (server "ok") "ftp")
    by (apply server_invalid; [reflexivity|discriminate..]).
  assert (Hz : invalid (server "ok") "http")
    by (apply server_invalid; [reflexivity|discriminate..]).
  assert (Hq : CommandQuit ∈ scanned (line "status" +:+ line ":q")).
  { apply (bool_decide_unpack _). vm_compute. reflexivity. }
  assert (Hown : own_protocol (server "ok") "rcon") by (right; now left).
  destruct (negotiation_limit (server "ok") local "ssh" "ftp"
              Hd Hw Ha Hp Hty Hx Hy) as [Hthree Htwo].
  destruct (Htwo (start (line "ssh" +:+ line "ftp" +:+ line "rcon"
                         +:+ line "status" +:+ line ":q"))
              "rcon" (line "status" +:+ line ":q") 0 eq_refl)
    as (Hrcon & _ & _ & Hrun).
  refine (conj (conj Hd Hw)
            (conj (conj Ha (conj Hp Hty))
               (conj (conj Hx (conj Hy Hz)) (conj _ (conj _ _))))).
  - exact (Hthree (start (line "ssh" +:+ line "ftp" +:+ line "http"))
             "http" "" 0 Hz eq_refl).
  - exact (Hrcon (or_intror eq_refl)).
  - exact (proj2 (proj2 (Hrun Hown)) Hacc Hnf Hq).
Defined.

(** ** The quit command *)

(** C9. The quit command ends the command loop without an error, and it is
    never dispatched.  In every round of the loop of [Interactive] that
    reaches the command loop, whatever the number of attempts used and
    whatever was read and done before: when the lines before the quit
    command are scanned without leaving the loop, the round returns nil
    with the calls and the output as those lines left them, so that
    nothing is sent for the quit command or for a line after it.  For
    [Interactive] as a whole: with the credentials accepted and no command
    failing, after the address and the password it asks for and after
    invalid entries for the type, fewer than the limit, an input with the
    quit command among its lines makes it return nil.  And whatever the
    collaborators and the input are, [Interactive] adds no call of a
    client's [Execute] with the quit command to the trace. *)
Theorem Interactive_quit (E : Env) (ses : Session) (st : State) :
  (forall fuel attempt ses' st' before after,
      distinct_protocols E ->
      let ses1 := (asked ses' st').1 in
      let st0 := (asked ses' st').2 in
      own_protocol E (Type_ ses1) ->
      (CheckCredentials E ses1 st0).1 = None ->
      scanned (r st0) = (before ++ CommandQuit :: after)%list ->
      (commandLoop E ses1 before (loopEntry E ses1 st0)).1 = ScanEnd ->
      let res := Loop E (S fuel) attempt ses' st' in
      let st3 := (commandLoop E ses1 before (loopEntry E ses1 st0)).2 in
      res.1 = (Returned None, ses1)
      /\ trace res.2 = trace st3
      /\ w res.2 = w st3)
  /\ (forall entries input fuel,
        distinct_protocols E ->
        accepts_credentials E ->
        never_fails E ->
        let ses2 := (prompted ses st).1 in
        let st2 := (prompted ses st).2 in
        entries = [] \/ Type_ ses2 = "" ->
        Forall (invalid E) entries ->
        length entries < AttemptsLimit ->
        r st2 = feed entries +:+ input ->
        own_protocol E (Type_ (readType ses2 input).1) ->
        CommandQuit ∈ scanned (readType ses2 input).2 ->
        (Interactive E (length entries + S fuel) ses st).1
        = (Returned None, (readType ses2 input).1))
  /\ (forall fuel c address password,
        CallExecute c address password CommandQuit
          ∈ trace (Interactive E fuel ses st).2 ->
        CallExecute c address password CommandQuit ∈ trace st).
Proof.
  split; [|split].
  - intros fuel attempt ses' st' before after Hd ses1 st0 Hown Hok Hlines
      Hbefore. cbv zeta.
    rewrite (Loop_round E fuel attempt ses' st' Hd Hown). cbv zeta.
    fold ses1 st0. rewrite Hok, Hlines, commandLoop_app.
    destruct (commandLoop E ses1 before (loopEntry E ses1 st0))
      as [exit st3]. cbn [fst snd] in *. subst exit.
    rewrite commandLoop_quit_first. auto.
  - intros entries input fuel Hd Hacc Hnf ses2 st2 Hty Hall Hlt Hr Hown Hq.
    rewrite Interactive_prompted. fold ses2 st2.
    destruct (Loop_invalid_entries E entries 0 ses2 st2 input Hty Hall Hlt Hr)
      as [out ->]. cbn [Nat.add].
    set (st' := mkState input _ _).
    destruct (asked_readType ses2 st') as (Hses & Hin & _).
    cbn [r] in Hses, Hin.
    assert (Hown' : own_protocol E (Type_ (asked ses2 st').1))
      by now rewrite Hses.
    rewrite (Loop_round E fuel _ ses2 st' Hd Hown'). cbv zeta.
    rewrite (CheckCredentials_accepted E _ _ Hacc), Hin, Hses.
    match goal with
    | |- context [commandLoop E ?s ?l ?t] =>
        pose proof (commandLoop_quit E s l t Hnf Hq) as Hexit;
        destruct (commandLoop E s l t) as [exit st3]
    end.
    cbn [fst] in Hexit. subst exit. reflexivity.
  - intros fuel c address password Hin.
    destruct (Interactive_not_quit E fuel ses st) as (evs & Htr & Hevs).
    rewrite Htr in Hin. apply elem_of_app in Hin as [Hin | Hin];
      [assumption|].
    rewrite Forall_forall in Hevs.
    exfalso. exact (Hevs _ Hin c address password eq_refl).
Qed.

(** The executor is started without flags: the user types the address and
    the password, an unknown name for the type and then an empty line,
    sends one command and quits. *)
Lemma Interactive_quit_witness :
  let E := server "ok" in
  let ses := mkSession "" "" "" "rcon.log" in
  let input := line "" +:+ line "status" +:+ line ":q" +:+ line "list" in
  let st :=
    start (line "127.0.0.1:16260" +:+ line "secret" +:+ line "ssh"
           +:+ input) in
  (distinct_protocols E /\ accepts_credentials E /\ never_fails E)
  /\ ((["ssh"] = [] \/ Type_ (prompted ses st).1 = "")
      /\ Forall (invalid E) ["ssh"]
      /\ length ["ssh"] < AttemptsLimit
      /\ r (prompted ses st).2 = feed ["ssh"] +:+ input)
  /\ (own_protocol E (Type_ (readType (prompted ses st).1 input).1)
      /\ CommandQuit ∈ scanned (readType (prompted ses st).1 input).2)
  /\ (Interactive E 2 ses st).1
     = (Returned None, mkSession "127.0.0.1:16260" "secret" "" "rcon.log").
Proof.
  cbv zeta.
  set (ses := mkSession "" "" "" "rcon.log").
  set (input := line "" +:+ line "status" +:+ line ":q" +:+ line "list").
  set (st := start (line "127.0.0.1:16260" +:+ line "secret" +:+ line "ssh"
                    +:+ input)).
  pose proof (server_distinct "ok") as Hd.
  pose proof (server_accepts "ok") as Hacc.
  pose proof (server_never_fails "ok") as Hnf.
  assert (Hty : ["ssh"] = [] \/ Type_ (prompted ses st).1 = "")
    by now right.
  assert (Hall : Forall (invalid (server "ok")) ["ssh"]).
  { constructor; [|constructor].
    apply server_invalid; [reflexivity|discriminate..]. }
  assert (Hlt : length ["ssh"] < AttemptsLimit)
    by (unfold AttemptsLimit; cbn; lia).
  assert (Hr : r (prompted ses st).2 = feed ["ssh"] +:+ input)
    by reflexivity.
  assert (Hown : own_protocol (server "ok")
                   (Type_ (readType (prompted ses st).1 input).1))
    by now left.
  assert (Hq : CommandQuit
               ∈ scanned (readType (prompted ses st).1 input).2).
  { apply (bool_decide_unpack _). vm_compute. reflexivity. }
  exact (conj (conj Hd (conj Hacc Hnf))
           (conj (conj Hty (conj Hall (conj Hlt Hr)))
              (conj (conj Hown Hq)
                 (proj1 (proj2 (Interactive_quit (server "ok") ses st))
                    ["ssh"] input 0 Hd Hacc Hnf Hty Hall Hlt Hr Hown Hq)))).
Defined.
